(** * Storage-facility scanner: the grid generator and the session store

    A shallow embedding of [src/app.py]: [GridCalculator.calculate_scan_grid]
    with [_distance_miles], and the request handlers [setup_scan],
    [get_current_location], [control_scan], [add_bookmark], [get_bookmarks]
    and [export_bookmarks] over the module-level dictionary
    [scanning_sessions].

    Python's [float] is IEEE 754 binary64, which is Rocq's primitive [float];
    Python's [int] is [Z]; a [dict] keyed by strings is a [gmap string]; an
    exception is the [Raise] case of [result]. What a request carries is a
    JSON value, and [current_index], which a jump sets from one, is an
    [int], a [bool] or a [float]. *)

From Stdlib Require Import ZArith Lia Floats.
From stdpp Require Import base option list list_numbers sorting gmap strings pretty.

(* A decimal literal denotes the nearest binary64 value, as in Python. *)
#[global] Set Warnings "-inexact-float".

#[local] Open Scope Z_scope.

(** ** Exceptions and results *)

Inductive exn :=
| ValueError
| OverflowError
| ZeroDivisionError
| IndexError
| KeyError
| TypeError.

Inductive result (A : Type) :=
| Ok (a : A)
| Raise (e : exn).
Arguments Ok {A} a.
Arguments Raise {A} e.

#[global] Instance result_ret : MRet result := @Ok.
#[global] Instance result_bind : MBind result := λ A B f m,
  match m with
  | Ok a => f a
  | Raise e => Raise e
  end.
#[global] Instance result_fmap : FMap result := λ A B f m,
  match m with
  | Ok a => Ok (f a)
  | Raise e => Raise e
  end.

(** [for x in xs: st = body x st], stopping at the first exception. *)
Fixpoint for_each {A S : Type} (body : A → S → result S) (xs : list A) (st : S)
    : result S :=
  match xs with
  | [] => Ok st
  | x :: xs' => st' ← body x st; for_each body xs' st'
  end.

(** [len(l)]. *)
Definition len {A : Type} (l : list A) : Z := Z.of_nat (length l).

(** [l[i]] for a Python list: a negative index counts from the end. *)
Definition getitem {A : Type} (l : list A) (i : Z) : result A :=
  let j := if i <? 0 then i + len l else i in
  if (0 <=? j) && (j <? len l)
  then match l !! Z.to_nat j with
       | Some x => Ok x
       | None => Raise IndexError
       end
  else Raise IndexError.

(** [range(start, stop, step)] for [step <> 0], and [range(n)]. *)
Definition range3 (start stop step : Z) : list Z :=
  let n := if 0 <? step then (stop - start + step - 1) / step
           else (start - stop - step - 1) / (- step) in
  (λ i, start + i * step) <$> seqZ 0 n.

Definition range (n : Z) : list Z := range3 0 n 1.

(** ** Python's [float] *)

Module PyFloat.

(** [float(z)], also the coercion in [z * x]: the nearest binary64 value.
    The integers this program converts are literals, list lengths and loop
    indices below [int(x) + 1] for a finite [x]; past the float range,
    where Python raises [OverflowError], this gives an infinity. *)
Definition of_int (z : Z) : float :=
  SF2Prim (binary_normalize prec emax z 0 false).

(** The sign bit ([math.copysign(1, x) < 0]); clear for a NaN. *)
Definition signbit (x : float) : bool :=
  match Prim2SF x with
  | S754_nan => false
  | S754_zero s | S754_infinity s | S754_finite s _ _ => s
  end.

(** [not (x < 0)]: a NaN, a zero of either sign, or above zero. *)
Definition nonneg (x : float) : bool := negb (x <? 0)%float.
Definition SFnonneg (x : spec_float) : bool :=
  negb (SFltb x (S754_zero false)).

(** [int(x)]: truncation towards zero. *)
Definition to_int (x : float) : result Z :=
  match Prim2SF x with
  | S754_nan => Raise ValueError
  | S754_infinity _ => Raise OverflowError
  | S754_zero _ => Ok 0
  | S754_finite s m e => Ok (cond_Zopp s (Z.shiftl (Z.pos m) e))
  end.

(** [a / b] on two [int]s: the correctly rounded quotient. *)
Definition truediv (a b : Z) : result float :=
  if b =? 0 then Raise ZeroDivisionError
  else match a with
       | 0 => Ok (if b <? 0 then neg_zero else zero)
       | _ => Ok (SF2Prim (SFdiv prec emax
                    (S754_finite (a <? 0) (Z.to_pos (Z.abs a)) 0)
                    (S754_finite (b <? 0) (Z.to_pos (Z.abs b)) 0)))
       end.

(** The integer nearest to [num / den] ([den > 0]), ties to even. *)
Definition round_half_even (num den : Z) : Z :=
  let q := num / den in
  match 2 * (num mod den) ?= den with
  | Lt => q
  | Gt => q + 1
  | Eq => if Z.even q then q else q + 1
  end.

(** The binary64 value nearest to [n * 10^k], [n > 0]. *)
Definition of_decimal (s : bool) (n : positive) (k : Z) : float :=
  if 0 <=? k
  then SF2Prim (binary_normalize prec emax
                  (cond_Zopp s (Z.pos n * 10 ^ k)) 0 false)
  else SF2Prim (SFdiv prec emax (S754_finite s n 0)
                  (S754_finite false (Z.to_pos (10 ^ (- k))) 0)).

(** [round(x, ndigits)] for [0 <= ndigits]: the decimal with [ndigits]
    places nearest to the exact value of [x] (ties to even), read back as
    a float; NaN, infinities and zeros round to themselves. *)
Definition round (x : float) (ndigits : Z) : float :=
  if 323 <? ndigits then x else
  match Prim2SF x with
  | S754_finite s m e =>
      let n := if 0 <=? e
               then Z.pos m * 2 ^ e * 10 ^ ndigits
               else round_half_even (Z.pos m * 10 ^ ndigits) (2 ^ (- e)) in
      match n with
      | Z.pos p => of_decimal s p (- ndigits)
      | _ => if s then neg_zero else zero
      end
  | _ => x
  end.

(** The exact value [d / 10^k] of the finite float [m * 2^e]. *)
Definition exact_decimal (m : positive) (e : Z) : Z * Z :=
  if 0 <=? e then (Z.pos m * 2 ^ e, 0) else (Z.pos m * 5 ^ (- e), - e).

Definition digits (n : Z) : string := pretty (Z.to_N n).

Definition reads_back (x : float) (s : bool) (n k : Z) : bool :=
  match n with
  | Z.pos p => PrimFloat.Leibniz.eqb (of_decimal s p k) x
  | _ => false
  end.

(** The shortest decimal [n * 10^k] that reads back as [x], the nearer to
    [x] when two of that length do; [d * 10^scale] is the exact value of
    [|x|], [d] has [l] digits, and decimals of [n], [n + 1], ... digits are
    tried (17 always suffice). *)
Fixpoint shortest (x : float) (s : bool) (d l scale : Z) (fuel : nat) (n : Z)
    : Z * Z :=
  match fuel with
  | O => (d, scale)
  | S fuel' =>
      if l <=? n then (d, scale) else
      let p := 10 ^ (l - n) in
      let lo := d / p in
      let k := scale + (l - n) in
      let lo_ok := reads_back x s lo k in
      let hi_ok := reads_back x s (lo + 1) k in
      if lo_ok && hi_ok
      then (if 2 * (d mod p) <=? p then (lo, k) else (lo + 1, k))
      else if lo_ok then (lo, k)
      else if hi_ok then (lo + 1, k)
      else shortest x s d l scale fuel' (n + 1)
  end.

Fixpoint strip_zeros (fuel : nat) (n k : Z) : Z * Z :=
  match fuel with
  | O => (n, k)
  | S fuel' =>
      if (n mod 10 =? 0) && negb (n =? 0)
      then strip_zeros fuel' (n / 10) (k + 1)
      else (n, k)
  end.

Definition zeros (n : Z) : string :=
  String.concat "" (replicate (Z.to_nat n) "0").
Definition prefix (n : Z) (s : string) : string :=
  String.substring 0 (Z.to_nat n) s.
Definition suffix (n : Z) (s : string) : string :=
  String.substring (Z.to_nat n) (String.length s - Z.to_nat n) s.

(** [repr(x)], which is also [str(x)] and what an f-string writes: the
    shortest digits that read back as [x], in fixed notation when the
    decimal point falls within [-4 < decpt <= 16], else with an exponent. *)
Definition repr (x : float) : string :=
  match Prim2SF x with
  | S754_nan => "nan"
  | S754_infinity s => if s then "-inf" else "inf"
  | S754_zero s => if s then "-0.0" else "0.0"
  | S754_finite s m e =>
      let '(d, sc) := exact_decimal m e in
      let '(n, k) :=
        shortest x s d (Z.of_nat (String.length (digits d))) (- sc) 17 1 in
      let '(n, k) := strip_zeros 400 n k in
      let ds := digits n in
      let nd := Z.of_nat (String.length ds) in
      let decpt := nd + k in
      let body :=
        if (decpt <=? -4) || (16 <? decpt) then
          let e10 := decpt - 1 in
          (if nd =? 1 then ds else prefix 1 ds +:+ "." +:+ suffix 1 ds)
          +:+ "e" +:+ (if e10 <? 0 then "-" else "+")
          +:+ (if Z.abs e10 <? 10 then "0" else "") +:+ digits (Z.abs e10)
        else if decpt <=? 0 then "0." +:+ zeros (- decpt) +:+ ds
        else if nd <=? decpt then ds +:+ zeros (decpt - nd) +:+ ".0"
        else prefix decpt ds +:+ "." +:+ suffix decpt ds in
      (if s then "-" else "") +:+ body
  end.

End PyFloat.

(** ** The [math] module

    [math.sin], [math.cos] and [math.atan2] call the platform's C library,
    which is no part of the repository: the model takes the three functions
    as the interface [Libm]. [math.sqrt] is IEEE's correctly rounded square
    root. CPython wraps each call: a NaN result of an argument that is not a
    NaN, or an infinite result of a finite argument, raises. *)

Class Libm := {
  libm_sin : float → float;
  libm_cos : float → float;
  libm_atan2 : float → float → float;
}.

(** What the sign of a distance needs of the C library's [atan2]: its result
    is negative only for a negative [y], or for [y = -0.0] when the sign bit
    of [x] is set. *)
Class LibmSign `{Libm} : Prop :=
  atan2_negative : ∀ y x, (libm_atan2 y x <? 0)%float = true →
    (y <? 0)%float = true
    ∨ (PyFloat.signbit y = true ∧ PyFloat.signbit x = true).

Module math.
#[local] Open Scope float_scope.

Definition checked1 (f : float → float) (x : float) : result float :=
  let r := f x in
  if is_nan r && negb (is_nan x) then Raise ValueError
  else if is_infinity r && is_finite x then Raise ValueError
  else Ok r.

Definition checked2 (f : float → float → float) (x y : float) : result float :=
  let r := f x y in
  if is_nan r && negb (is_nan x) && negb (is_nan y) then Raise ValueError
  else if is_infinity r && is_finite x && is_finite y then Raise OverflowError
  else Ok r.

Definition sin `{Libm} : float → result float := checked1 libm_sin.
Definition cos `{Libm} : float → result float := checked1 libm_cos.
Definition sqrt : float → result float := checked1 PrimFloat.sqrt.
Definition atan2 `{Libm} : float → float → result float := checked2 libm_atan2.

Definition pi : float := 3.141592653589793.
Definition radians (x : float) : float := x * (pi / 180).
End math.

(** A reference [Libm], for evaluating the model on concrete inputs: range
    reduction and Taylor polynomials, within a few units in the last place of
    a C library's results and equal to them at the exact cases
    ([sin 0 = 0], [cos 0 = 1], [atan2 0 1 = 0]). *)
Module Reference.
#[local] Open Scope float_scope.

Fixpoint nest (z : float) (terms : nat) (a : Z) : float :=
  match terms with
  | O => 1
  | S t => 1 - z / PyFloat.of_int (a * (a + 1)) * nest z t (a + 2)
  end.
Definition sin_poly (r : float) : float := r * nest (r * r) 10 2.
Definition cos_poly (r : float) : float := nest (r * r) 10 1.

(** [x = k * pi/2 + r] with [|r| <= pi/4], [pi/2] in two parts. *)
Definition reduce (x : float) : option (Z * float) :=
  match PyFloat.to_int
          (x * 0.6366197723675814 + (if x <? 0 then -0.5 else 0.5)) with
  | Ok k =>
      let fk := PyFloat.of_int k in
      Some (k, x - fk * 1.5707963267341256 - fk * 6.077100506506192e-11)
  | Raise _ => None
  end.

Definition sin (x : float) : float :=
  match reduce x with
  | None => nan
  | Some (k, r) =>
      match (k mod 4)%Z with
      | 0%Z => sin_poly r
      | 1%Z => cos_poly r
      | 2%Z => - sin_poly r
      | _ => - cos_poly r
      end
  end.

Definition cos (x : float) : float :=
  match reduce x with
  | None => nan
  | Some (k, r) =>
      match (k mod 4)%Z with
      | 0%Z => cos_poly r
      | 1%Z => - sin_poly r
      | 2%Z => - cos_poly r
      | _ => sin_poly r
      end
  end.

Fixpoint atan_series (z : float) (terms : nat) (k : Z) : float :=
  match terms with
  | O => 0
  | S t => 1 / PyFloat.of_int k - z * atan_series z t (k + 2)
  end.
Definition halve (u : float) : float := u / (1 + sqrt (1 + u * u)).
(** [atan t] for [0 <= t <= 1]. *)
Definition atan01 (t : float) : float :=
  let u := halve (halve t) in 4 * (u * atan_series (u * u) 16 1).

(** The angle of the point [(x, ay)], [0 <= ay], in [[0, pi]]. *)
Definition angle (ay x : float) : float :=
  let ax := abs x in
  let phi :=
    if is_infinity ax then (if is_infinity ay then math.pi / 4 else 0)
    else if is_infinity ay then math.pi / 2
    else if is_zero ay then 0
    else if is_zero ax then math.pi / 2
    else if ay <=? ax then atan01 (ay / ax)
    else math.pi / 2 - atan01 (ax / ay) in
  if PyFloat.signbit x then math.pi - phi else phi.

Definition atan2 (y x : float) : float :=
  if is_nan y || is_nan x then nan
  else let t := abs (angle (abs y) x) in
       if PyFloat.signbit y then - t else t.

Definition libm : Libm :=
  {| libm_sin := sin; libm_cos := cos; libm_atan2 := atan2 |}.
End Reference.

(** ** JSON values and Python's numbers *)

(** What [request.json] can hold under a key. *)
#[local] Unset Elimination Schemes.
Inductive json :=
| JNull
| JBool (b : bool)
| JInt (n : Z)
| JFloat (x : float)
| JString (s : string)
| JArray (items : list json)
| JObject (members : list (string * json)).
#[local] Set Elimination Schemes.

(** An [int] against a [float]: Python compares the two exactly, with no
    conversion of the [int]. [SFint_lt z x] is [z < x] and [SFlt_int x z] is
    [x < z]; a NaN is below and above nothing. *)
Definition SFint_lt (z : Z) (x : spec_float) : bool :=
  match x with
  | S754_nan => false
  | S754_infinity s => negb s
  | S754_zero _ => z <? 0
  | S754_finite s m e =>
      if 0 <=? e then z <? cond_Zopp s (Z.pos m) * 2 ^ e
      else z * 2 ^ (- e) <? cond_Zopp s (Z.pos m)
  end.
Definition SFlt_int (x : spec_float) (z : Z) : bool :=
  match x with
  | S754_nan => false
  | S754_infinity s => s
  | S754_zero _ => 0 <? z
  | S754_finite s m e =>
      if 0 <=? e then cond_Zopp s (Z.pos m) * 2 ^ e <? z
      else cond_Zopp s (Z.pos m) <? z * 2 ^ (- e)
  end.
Definition int_lt_float (z : Z) (x : float) : bool :=
  SFint_lt z (Prim2SF x).
Definition float_lt_int (x : float) (z : Z) : bool :=
  SFlt_int (Prim2SF x) z.

(** The values [current_index] can hold: an [int], a [bool] (which is an
    [int] to every operation below) or a [float]. *)
Module PyNum.
Inductive t :=
| Int (n : Z)
| Bool (b : bool)
| Float (x : float).

(** The number a JSON value is; [a < b] raises [TypeError] when one side is
    an [int] and the other [None], a [str], a [list] or a [dict]. *)
Definition of_json (v : json) : result t :=
  match v with
  | JInt n => Ok (Int n)
  | JBool b => Ok (Bool b)
  | JFloat x => Ok (Float x)
  | _ => Raise TypeError
  end.

(** An [int] or a [bool], which is the [int] 0 or 1, or else a [float]. *)
Definition view (a : t) : Z + float :=
  match a with
  | Int n => inl n
  | Bool b => inl (Z.b2z b)
  | Float x => inr x
  end.

Definition to_Z (a : t) : option Z :=
  match view a with
  | inl n => Some n
  | inr _ => None
  end.

(** [a < b]. *)
Definition lt (a b : t) : bool :=
  match view a, view b with
  | inl m, inl n => m <? n
  | inl m, inr y => int_lt_float m y
  | inr x, inl n => float_lt_int x n
  | inr x, inr y => (x <? y)%float
  end.

(** [min(a, b)] is [b] when [b < a], else [a]; [max(a, b)] is [b] when
    [b > a], else [a]. *)
Definition min (a b : t) : t := if lt b a then b else a.
Definition max (a b : t) : t := if lt a b then b else a.

(** [a + k] and [a - k] for an [int] [k]. *)
Definition add_int (a : t) (k : Z) : t :=
  match view a with
  | inl n => Int (n + k)
  | inr x => Float (x + PyFloat.of_int k)
  end.
Definition sub_int (a : t) (k : Z) : t :=
  match view a with
  | inl n => Int (n - k)
  | inr x => Float (x - PyFloat.of_int k)
  end.

(** [a / n] for an [int] [n]. *)
Definition truediv (a : t) (n : Z) : result float :=
  match view a with
  | inl m => PyFloat.truediv m n
  | inr x =>
      if n =? 0 then Raise ZeroDivisionError
      else Ok (x / PyFloat.of_int n)%float
  end.

(** [l[a]]: a [float] is no list index. *)
Definition getitem {A : Type} (l : list A) (a : t) : result A :=
  match view a with
  | inl n => getitem l n
  | inr _ => Raise TypeError
  end.
End PyNum.

(** ** Data model: the dictionaries the handlers build *)

Module GridPoint.
Record t := {
  id : Z;
  lat : float;
  lon : float;
  row : Z;
  col : Z;
  distance_from_center : float;
  google_maps_url : string;
  google_embed_url : string;
  openstreetmap_url : string;
  bing_maps_url : string;
}.
End GridPoint.

Module Bookmark.
Record t := {
  id : string;
  lat : float;
  lon : float;
  note : json;
  grid_index : PyNum.t;
  timestamp : string;
  google_maps_url : string;
  street_view_url : string;
}.
End Bookmark.

Module ScanSession.
Record t := {
  id : string;
  center_lat : float;
  center_lon : float;
  radius_miles : float;
  zoom_level : Z;
  speed_seconds : float;
  grid_points : list GridPoint.t;
  current_index : PyNum.t;
  is_running : bool;
  is_paused : bool;
  bookmarks : list Bookmark.t;
  created_at : string;
  last_activity : string;
}.

(** [scan_session['key'] = v], one setter per key the handlers assign. *)
Definition set_current_index (v : PyNum.t) (s : t) : t :=
  {| id := id s; center_lat := center_lat s; center_lon := center_lon s;
     radius_miles := radius_miles s; zoom_level := zoom_level s;
     speed_seconds := speed_seconds s; grid_points := grid_points s;
     current_index := v; is_running := is_running s;
     is_paused := is_paused s; bookmarks := bookmarks s;
     created_at := created_at s; last_activity := last_activity s |}.
Definition set_is_running (v : bool) (s : t) : t :=
  {| id := id s; center_lat := center_lat s; center_lon := center_lon s;
     radius_miles := radius_miles s; zoom_level := zoom_level s;
     speed_seconds := speed_seconds s; grid_points := grid_points s;
     current_index := current_index s; is_running := v;
     is_paused := is_paused s; bookmarks := bookmarks s;
     created_at := created_at s; last_activity := last_activity s |}.
Definition set_is_paused (v : bool) (s : t) : t :=
  {| id := id s; center_lat := center_lat s; center_lon := center_lon s;
     radius_miles := radius_miles s; zoom_level := zoom_level s;
     speed_seconds := speed_seconds s; grid_points := grid_points s;
     current_index := current_index s; is_running := is_running s;
     is_paused := v; bookmarks := bookmarks s;
     created_at := created_at s; last_activity := last_activity s |}.
Definition set_bookmarks (v : list Bookmark.t) (s : t) : t :=
  {| id := id s; center_lat := center_lat s; center_lon := center_lon s;
     radius_miles := radius_miles s; zoom_level := zoom_level s;
     speed_seconds := speed_seconds s; grid_points := grid_points s;
     current_index := current_index s; is_running := is_running s;
     is_paused := is_paused s; bookmarks := v;
     created_at := created_at s; last_activity := last_activity s |}.
Definition set_last_activity (v : string) (s : t) : t :=
  {| id := id s; center_lat := center_lat s; center_lon := center_lon s;
     radius_miles := radius_miles s; zoom_level := zoom_level s;
     speed_seconds := speed_seconds s; grid_points := grid_points s;
     current_index := current_index s; is_running := is_running s;
     is_paused := is_paused s; bookmarks := bookmarks s;
     created_at := created_at s; last_activity := v |}.
End ScanSession.

(** ** GridCalculator *)

Module GridCalculator.
#[local] Open Scope float_scope.

(** Viewport sizes at different zoom levels. *)
Definition viewport_degrees : gmap Z float :=
  list_to_map [(15%Z, 0.02); (16%Z, 0.01); (17%Z, 0.005); (18%Z, 0.0025);
               (19%Z, 0.00125)].

Section distance.
Context `{Libm}.

(** Distance between coordinates in miles, by the haversine formula. *)
Definition _distance_miles (lat1 lon1 lat2 lon2 : float) : result float :=
  let R := 3959%Z in
  let dlat := math.radians (lat2 - lat1) in
  let dlon := math.radians (lon2 - lon1) in
  s1 ← math.sin (dlat / 2);
  s2 ← math.sin (dlat / 2);
  c1 ← math.cos (math.radians lat1);
  c2 ← math.cos (math.radians lat2);
  s3 ← math.sin (dlon / 2);
  s4 ← math.sin (dlon / 2);
  let a := s1 * s2 + c1 * c2 * s3 * s4 in
  q1 ← math.sqrt a;
  q2 ← math.sqrt (1 - a);
  t ← math.atan2 q1 q2;
  let c := 2 * t in
  Ok (PyFloat.of_int R * c).
End distance.

(** The dictionary appended for a retained point (lines 61-72). *)
Definition grid_point (point_id : Z) (lat lon : float) (row col : Z)
    (distance : float) (zoom_level : Z) : GridPoint.t :=
  let lat_s := PyFloat.repr lat in
  let lon_s := PyFloat.repr lon in
  let zoom_s := pretty zoom_level in
  {| GridPoint.id := point_id;
     GridPoint.lat := PyFloat.round lat 6;
     GridPoint.lon := PyFloat.round lon 6;
     GridPoint.row := row;
     GridPoint.col := col;
     GridPoint.distance_from_center := PyFloat.round distance 2;
     GridPoint.google_maps_url :=
       "https://maps.google.com/@" +:+ lat_s +:+ "," +:+ lon_s +:+ ","
       +:+ zoom_s +:+ "z";
     GridPoint.google_embed_url :=
       "https://www.google.com/maps/embed?pb=!1m14!1m12!1m3!1d3000!2d"
       +:+ lon_s +:+ "!3d" +:+ lat_s
       +:+ "!2m3!1f0!2f0!3f0!3m2!1i1024!2i768!4f13.1!5e0!3m2!1sen!2sus!4v1";
     GridPoint.openstreetmap_url :=
       "https://www.openstreetmap.org/?mlat=" +:+ lat_s +:+ "&mlon="
       +:+ lon_s +:+ "&zoom=" +:+ zoom_s;
     GridPoint.bing_maps_url :=
       "https://www.bing.com/maps?cp=" +:+ lat_s +:+ "~" +:+ lon_s
       +:+ "&lvl=" +:+ zoom_s |}.

Section grid.
Context `{Libm}.
Variables (center_lat center_lon radius_miles : float) (zoom_level : Z).

Definition view_size : float :=
  default 0.0025 (viewport_degrees !! zoom_level).
(** Miles to degrees. *)
Definition radius_deg : float := radius_miles / 69.0.
(** Step size with 20% overlap. *)
Definition step_size : float := view_size * 0.8.
Definition grid_size : result Z :=
  n ← PyFloat.to_int (2 * radius_deg / step_size); Ok (n + 1)%Z.

Definition row_lat (row : Z) : float :=
  center_lat - radius_deg + PyFloat.of_int row * step_size.
Definition col_lon (col : Z) : float :=
  center_lon - radius_deg + PyFloat.of_int col * step_size.

(** The scanning direction alternates from row to row. *)
Definition cols (grid_size row : Z) : list Z :=
  if (row mod 2 =? 0)%Z then range grid_size
  else range3 (grid_size - 1) (-1) (-1).

(** The body of the inner loop, on [(grid_points, point_id)]. *)
Definition visit (row col : Z) (st : list GridPoint.t * Z)
    : result (list GridPoint.t * Z) :=
  let '(grid_points, point_id) := st in
  let lat := row_lat row in
  let lon := col_lon col in
  distance ← _distance_miles center_lat center_lon lat lon;
  if distance <=? radius_miles
  then Ok (grid_points
             ++ [grid_point point_id lat lon row col distance zoom_level],
           (point_id + 1)%Z)
  else Ok (grid_points, point_id).

(** Grid points with metadata for web display. *)
Definition calculate_scan_grid : result (list GridPoint.t) :=
  grid_size ← grid_size;
  fst <$> for_each
            (λ row, for_each (visit row) (cols grid_size row))
            (range grid_size) ([], 0%Z).

(** The cells [(row, col)] of the lattice, in the order of the walk. *)
Definition traversal (grid_size : Z) : list (Z * Z) :=
  row ← range grid_size; (λ col, (row, col)) <$> cols grid_size row.

(** What the walk retains of a list of cells, with ids from [point_id]
    on: the loops of [calculate_scan_grid] as a recursive function, to
    which [scan_retained] relates them. *)
Fixpoint retained (cells : list (Z * Z)) (point_id : Z)
    : result (list GridPoint.t) :=
  match cells with
  | [] => Ok []
  | (row, col) :: cells' =>
      distance ← _distance_miles center_lat center_lon
                   (row_lat row) (col_lon col);
      if distance <=? radius_miles
      then cons (grid_point point_id (row_lat row) (col_lon col) row col
                   distance zoom_level)
             <$> retained cells' (point_id + 1)
      else retained cells' point_id
  end.

(** The cell a point was made at. *)
Definition cell (p : GridPoint.t) : Z * Z :=
  (GridPoint.row p, GridPoint.col p).

(** [p] is the dictionary built at its cell, where the distance computed
    was [distance] and passed the test. *)
Definition made_at (p : GridPoint.t) (distance : float) : Prop :=
  _distance_miles center_lat center_lon
    (row_lat (GridPoint.row p)) (col_lon (GridPoint.col p)) = Ok distance
  ∧ (distance <=? radius_miles) = true
  ∧ p = grid_point (GridPoint.id p) (row_lat (GridPoint.row p))
          (col_lon (GridPoint.col p)) (GridPoint.row p) (GridPoint.col p)
          distance zoom_level.
End grid.

(** Cell [a] comes before cell [b] in a serpentine walk: in an earlier
    row, or in the same row further along its direction (columns ascend in
    an even row and descend in an odd one). *)
Definition walk_before (a b : Z * Z) : Prop :=
  (a.1 < b.1 ∨
   (a.1 = b.1 ∧ if a.1 mod 2 =? 0 then a.2 < b.2 else b.2 < a.2))%Z.
End GridCalculator.

(** ** The session store and the request handlers *)

(** What [request.json] holds once [setup_scan] has converted it. *)
Module SetupData.
Record t := {
  center_lat : float;
  center_lon : float;
  radius_miles : float;
  zoom_level : Z;
  speed_seconds : float;
}.
End SetupData.

(** The body of a [control_scan] request: [action] is [None] when the key is
    absent or holds no string (no comparison of lines 194-211 is then true),
    [index] is the value under the key, [None] when the key is absent. The
    page sends an integer, or [null] when [parseInt] gave no number. *)
Module ControlRequest.
Record t := {
  action : option string;
  index : option json;
}.
End ControlRequest.

Module ExportData.
Record t := {
  center_lat : float;
  center_lon : float;
  radius_miles : float;
  zoom_level : Z;
  total_points_scanned : PyNum.t;
  scan_date : string;
  bookmarks : list Bookmark.t;
  total_bookmarks : Z;
  areas_scanned : PyNum.t;
  completion_percentage : float;
}.
End ExportData.

(** The JSON documents the handlers answer with. *)
Inductive response :=
| JsonError (error : string)
| JsonSetup (session_id : string) (total_points : Z)
    (estimated_time_minutes : float)
| JsonSetupFailed (error : exn)
| JsonLocation (current_point : GridPoint.t) (current_index : PyNum.t)
    (total_points : Z) (progress_percent : float)
    (is_running is_paused : bool)
| JsonCompleted
| JsonSuccess
| JsonBookmark (bookmark : Bookmark.t)
| JsonBookmarks (bookmarks : list Bookmark.t)
| JsonExport (export_data : ExportData.t).

(** A handler reads and updates [scanning_sessions]; it answers with a
    document, or an exception escapes it (the store keeps the updates made
    before). *)
Definition handler : Type :=
  gmap string ScanSession.t → result response * gmap string ScanSession.t.

(** [session.get('session_id')] and the test every handler starts with:
    [None] when [not session_id or session_id not in scanning_sessions]. *)
Definition active_session (cookie : option string)
    (scanning_sessions : gmap string ScanSession.t)
    : option (string * ScanSession.t) :=
  match cookie with
  | Some session_id =>
      if decide (session_id = "") then None
      else (λ scan_session, (session_id, scan_session))
             <$> scanning_sessions !! session_id
  | None => None
  end.

Definition no_active_session : response :=
  JsonError "No active scanning session".

Section handlers.
Context `{Libm}.
#[local] Open Scope float_scope.

(** [data] is the outcome of the five conversions of lines 105-109;
    [session_id] is [str(uuid.uuid4())], [now1] and [now2] the two
    [datetime.now().isoformat()]. Any exception is caught. *)
Definition setup_scan (data : result SetupData.t)
    (session_id now1 now2 : string) : handler := λ scanning_sessions,
  match
    d ← data;
    grid_points ←
      GridCalculator.calculate_scan_grid
        (SetupData.center_lat d) (SetupData.center_lon d)
        (SetupData.radius_miles d) (SetupData.zoom_level d);
    Ok (d, grid_points)
  with
  | Ok (d, grid_points) =>
      (Ok (JsonSetup session_id (len grid_points)
             (PyFloat.of_int (len grid_points) * SetupData.speed_seconds d
              / 60)),
       <[session_id :=
          {| ScanSession.id := session_id;
             ScanSession.center_lat := SetupData.center_lat d;
             ScanSession.center_lon := SetupData.center_lon d;
             ScanSession.radius_miles := SetupData.radius_miles d;
             ScanSession.zoom_level := SetupData.zoom_level d;
             ScanSession.speed_seconds := SetupData.speed_seconds d;
             ScanSession.grid_points := grid_points;
             ScanSession.current_index := PyNum.Int 0;
             ScanSession.is_running := false;
             ScanSession.is_paused := false;
             ScanSession.bookmarks := [];
             ScanSession.created_at := now1;
             ScanSession.last_activity := now2 |}]> scanning_sessions)
  | Raise e => (Ok (JsonSetupFailed e), scanning_sessions)
  end.

Definition get_current_location (cookie : option string) : handler :=
  λ scanning_sessions,
  match active_session cookie scanning_sessions with
  | None => (Ok no_active_session, scanning_sessions)
  | Some (session_id, scan_session) =>
      let current_index := ScanSession.current_index scan_session in
      let grid_points := ScanSession.grid_points scan_session in
      (if PyNum.lt current_index (PyNum.Int (len grid_points)) then
         current_point ← PyNum.getitem grid_points current_index;
         q ← PyNum.truediv current_index (len grid_points);
         let progress := q * 100 in
         Ok (JsonLocation current_point current_index (len grid_points)
               (PyFloat.round progress 1)
               (ScanSession.is_running scan_session)
               (ScanSession.is_paused scan_session))
       else Ok JsonCompleted,
       scanning_sessions)
  end.

(** The [if]/[elif] chain of lines 194-213. The assignment of a branch
    happens once its right-hand side is computed: where that raises, the
    session is as before. *)
Definition apply_action (body : ControlRequest.t)
    (scan_session : ScanSession.t) : result ScanSession.t :=
  let action := ControlRequest.action body in
  let current_index := ScanSession.current_index scan_session in
  let grid_points := ScanSession.grid_points scan_session in
  if decide (action = Some "start") then
    Ok (ScanSession.set_is_paused false
          (ScanSession.set_is_running true scan_session))
  else if decide (action = Some "pause") then
    Ok (ScanSession.set_is_paused true scan_session)
  else if decide (action = Some "resume") then
    Ok (ScanSession.set_is_paused false scan_session)
  else if decide (action = Some "stop") then
    Ok (ScanSession.set_is_paused false
          (ScanSession.set_is_running false scan_session))
  else if decide (action = Some "next") then
    Ok (ScanSession.set_current_index
          (PyNum.min (PyNum.add_int current_index 1)
             (PyNum.Int (len grid_points - 1))) scan_session)
  else if decide (action = Some "previous") then
    Ok (ScanSession.set_current_index
          (PyNum.max (PyNum.sub_int current_index 1) (PyNum.Int 0))
          scan_session)
  else if decide (action = Some "jump") then
    index ← PyNum.of_json (default (JInt 0) (ControlRequest.index body));
    Ok (ScanSession.set_current_index
          (PyNum.max (PyNum.Int 0)
             (PyNum.min index (PyNum.Int (len grid_points - 1))))
          scan_session)
  else Ok scan_session.

(** An exception of the chain escapes the handler before line 215. *)
Definition control_scan (cookie : option string) (body : ControlRequest.t)
    (now : string) : handler := λ scanning_sessions,
  match active_session cookie scanning_sessions with
  | None => (Ok no_active_session, scanning_sessions)
  | Some (session_id, scan_session) =>
      match apply_action body scan_session with
      | Raise e => (Raise e, scanning_sessions)
      | Ok scan_session' =>
          (Ok JsonSuccess,
           <[session_id := ScanSession.set_last_activity now scan_session']>
             scanning_sessions)
      end
  end.

(** The bookmark of lines 235-244; [note] is the value under the key
    'note', [None] when the request has no such key; [bookmark_id] is
    [str(uuid.uuid4())]. *)
Definition new_bookmark (current_point : GridPoint.t)
    (current_index : PyNum.t) (note : option json)
    (bookmark_id now : string) : Bookmark.t :=
  {| Bookmark.id := bookmark_id;
     Bookmark.lat := GridPoint.lat current_point;
     Bookmark.lon := GridPoint.lon current_point;
     Bookmark.note := default (JString "Potential storage facility") note;
     Bookmark.grid_index := current_index;
     Bookmark.timestamp := now;
     Bookmark.google_maps_url := GridPoint.google_maps_url current_point;
     Bookmark.street_view_url :=
       "https://maps.google.com/@"
       +:+ PyFloat.repr (GridPoint.lat current_point) +:+ ","
       +:+ PyFloat.repr (GridPoint.lon current_point)
       +:+ ",3a,75y,0h,90t/data=!3m7!1e1" |}.

Definition add_bookmark (cookie : option string) (note : option json)
    (bookmark_id now1 now2 : string) : handler := λ scanning_sessions,
  match active_session cookie scanning_sessions with
  | None => (Ok no_active_session, scanning_sessions)
  | Some (session_id, scan_session) =>
      let current_index := ScanSession.current_index scan_session in
      if PyNum.lt current_index
           (PyNum.Int (len (ScanSession.grid_points scan_session))) then
        match PyNum.getitem (ScanSession.grid_points scan_session)
                current_index with
        | Raise e => (Raise e, scanning_sessions)
        | Ok current_point =>
            let bookmark :=
              new_bookmark current_point current_index note bookmark_id now1 in
            (Ok (JsonBookmark bookmark),
             <[session_id :=
                ScanSession.set_last_activity now2
                  (ScanSession.set_bookmarks
                     (ScanSession.bookmarks scan_session ++ [bookmark])
                     scan_session)]> scanning_sessions)
        end
      else (Ok (JsonError "Invalid location for bookmarking"),
            scanning_sessions)
  end.

Definition get_bookmarks (cookie : option string) : handler :=
  λ scanning_sessions,
  match active_session cookie scanning_sessions with
  | None => (Ok no_active_session, scanning_sessions)
  | Some (session_id, scan_session) =>
      (Ok (JsonBookmarks (ScanSession.bookmarks scan_session)),
       scanning_sessions)
  end.

Definition export_bookmarks (cookie : option string) : handler :=
  λ scanning_sessions,
  match active_session cookie scanning_sessions with
  | None => (Ok no_active_session, scanning_sessions)
  | Some (session_id, scan_session) =>
      (q ← PyNum.truediv (ScanSession.current_index scan_session)
             (len (ScanSession.grid_points scan_session));
       Ok (JsonExport
             {| ExportData.center_lat := ScanSession.center_lat scan_session;
                ExportData.center_lon := ScanSession.center_lon scan_session;
                ExportData.radius_miles :=
                  ScanSession.radius_miles scan_session;
                ExportData.zoom_level := ScanSession.zoom_level scan_session;
                ExportData.total_points_scanned :=
                  ScanSession.current_index scan_session;
                ExportData.scan_date := ScanSession.created_at scan_session;
                ExportData.bookmarks := ScanSession.bookmarks scan_session;
                ExportData.total_bookmarks :=
                  len (ScanSession.bookmarks scan_session);
                ExportData.areas_scanned :=
                  ScanSession.current_index scan_session;
                ExportData.completion_percentage := q * 100 |}),
       scanning_sessions)
  end.

(** One request to the application, with what its handler draws from the
    clock and from [uuid4]. *)
Inductive request :=
| SetupScan (data : result SetupData.t) (session_id now1 now2 : string)
| GetCurrentLocation
| ControlScan (body : ControlRequest.t) (now : string)
| AddBookmark (note : option json) (bookmark_id now1 now2 : string)
| GetBookmarks
| ExportBookmarks.

Definition handle (cookie : option string) (r : request) : handler :=
  match r with
  | SetupScan data session_id now1 now2 =>
      setup_scan data session_id now1 now2
  | GetCurrentLocation => get_current_location cookie
  | ControlScan body now => control_scan cookie body now
  | AddBookmark note bookmark_id now1 now2 =>
      add_bookmark cookie note bookmark_id now1 now2
  | GetBookmarks => get_bookmarks cookie
  | ExportBookmarks => export_bookmarks cookie
  end.

(** What the handlers keep true of a session: the index stays on the grid,
    except that on an empty grid it is [0] or [-1]. An index that is a
    [float] is no NaN and lies between 0 and [len(grid_points) - 1]. *)
Definition index_inv (current_index : PyNum.t) (n : Z) : Prop :=
  match current_index with
  | PyNum.Float x =>
      is_nan x = false
      ∧ PyNum.lt current_index (PyNum.Int 0) = false
      ∧ PyNum.lt (PyNum.Int (n - 1)) current_index = false
  | _ =>
      ∃ i, PyNum.to_Z current_index = Some i
        ∧ (if decide (n = 0) then -1 ≤ i ≤ 0 else 0 ≤ i ≤ n - 1)%Z
  end.

Definition session_inv (scan_session : ScanSession.t) : Prop :=
  index_inv (ScanSession.current_index scan_session)
    (len (ScanSession.grid_points scan_session)).

(** [x] clamped to [[lo, hi]], in the spec's words. *)
Definition clamp (lo hi x : Z) : Z :=
  (if x <? lo then lo else if hi <? x then hi else x)%Z.

(** The stores the application can be in: it starts empty and changes by
    requests only. *)
Inductive reachable : gmap string ScanSession.t → Prop :=
| reachable_start : reachable ∅
| reachable_request scanning_sessions cookie r :
    reachable scanning_sessions →
    reachable (handle cookie r scanning_sessions).2.
End handlers.

(** ** Views and invariants of the further properties *)

(** What a point shows of the lattice: everything but its links. *)
Definition lattice_view (p : GridPoint.t)
    : Z * float * float * Z * Z * float :=
  (GridPoint.id p, GridPoint.lat p, GridPoint.lon p, GridPoint.row p,
   GridPoint.col p, GridPoint.distance_from_center p).

Definition lattice_views (pts : list GridPoint.t)
    : list (Z * float * float * Z * Z * float) :=
  lattice_view <$> pts.

(** The session a request can write: the one a setup creates, else the one
    the cookie names. *)
Definition target (cookie : option string) (r : request) : option string :=
  match r with
  | SetupScan _ session_id _ _ => Some session_id
  | _ => cookie
  end.

Definition creates (r : request) : bool :=
  match r with
  | SetupScan _ _ _ _ => true
  | _ => false
  end.

(** Each bookmark of the session names a point of its grid by an integer
    index and copies that point's coordinates and link. *)
Definition bookmarks_valid (scan_session : ScanSession.t) : Prop :=
  Forall (λ b,
    ∃ i p, PyNum.to_Z (Bookmark.grid_index b) = Some i
        ∧ 0 ≤ i
        ∧ ScanSession.grid_points scan_session !! Z.to_nat i = Some p
        ∧ Bookmark.lat b = GridPoint.lat p
        ∧ Bookmark.lon b = GridPoint.lon p
        ∧ Bookmark.google_maps_url b = GridPoint.google_maps_url p)
    (ScanSession.bookmarks scan_session).

(** The answers that report a failure. *)
Definition failed (answer : result response) : bool :=
  match answer with
  | Ok (JsonError _) | Ok (JsonSetupFailed _) | Raise _ => true
  | Ok _ => false
  end.

(** What every session of the store satisfies: it is filed under its id,
    its grid is the scan of its parameters, its index obeys [session_inv]
    and its bookmarks are [bookmarks_valid]. *)
Definition well_formed `{Libm} (session_id : string)
    (scan_session : ScanSession.t) : Prop :=
  ScanSession.id scan_session = session_id
  ∧ GridCalculator.calculate_scan_grid
      (ScanSession.center_lat scan_session)
      (ScanSession.center_lon scan_session)
      (ScanSession.radius_miles scan_session)
      (ScanSession.zoom_level scan_session)
    = Ok (ScanSession.grid_points scan_session)
  ∧ session_inv scan_session
  ∧ bookmarks_valid scan_session.

(** ** Inputs for examples *)

(** The grid of the 2-mile disc around (0, 0) at zoom 15, with the reference
    [Libm]: the lattice is 4 x 4 and 9 of its cells are retained. *)
Definition example_grid : result (list GridPoint.t) :=
  GridCalculator.calculate_scan_grid (H := Reference.libm) 0 0 2 15.

(** A request body with no [index]. *)
Definition act (action : string) : ControlRequest.t :=
  {| ControlRequest.action := Some action; ControlRequest.index := None |}.
Definition jump (index : json) : ControlRequest.t :=
  {| ControlRequest.action := Some "jump";
     ControlRequest.index := Some index |}.

(** The conversions of a setup request for the disc of [radius_miles] around
    (0, 0), 3 seconds a point. *)
Definition setup_data (radius_miles : float) (zoom_level : Z)
    : result SetupData.t :=
  Ok {| SetupData.center_lat := 0; SetupData.center_lon := 0;
        SetupData.radius_miles := radius_miles;
        SetupData.zoom_level := zoom_level;
        SetupData.speed_seconds := 3 |}.

(** The store after one setup request whose grid is empty: half a mile
    around (0, 0) at zoom 15 gives [grid_size = int(0.9) + 1 = 1], and the
    single cell, the south-west corner, is 0.71 miles from the centre. *)
Definition empty_grid_store : gmap string ScanSession.t :=
  (handle (H := Reference.libm) None
     (SetupScan (setup_data 0.5 15) "s" "t0" "t1") ∅).2.

(** The store after one setup request for [example_grid], 9 points. *)
Definition example_store : gmap string ScanSession.t :=
  (handle (H := Reference.libm) None
     (SetupScan (setup_data 2 15) "s" "t0" "t1") ∅).2.

(** [example_store] after a bookmark with no note at its first point. *)
Definition bookmarked_store : gmap string ScanSession.t :=
  (handle (H := Reference.libm) (Some "s")
     (AddBookmark None "b" "t2" "t3") example_store).2.

(** [example_store] after the control calls next, jump to 9999, next and
    previous: the index goes 1, 8, 8, 7. *)
Definition moved_store : gmap string ScanSession.t :=
  foldl (λ scanning_sessions body,
           (handle (H := Reference.libm) (Some "s") (ControlScan body "t2")
              scanning_sessions).2)
    example_store [act "next"; jump (JInt 9999); act "next"; act "previous"].

(** [example_store] after a jump to 2.5, which the handler stores as it
    is. *)
Definition jumped_store : gmap string ScanSession.t :=
  (handle (H := Reference.libm) (Some "s")
     (ControlScan (jump (JFloat 2.5)) "t2") example_store).2.

(** * Facts

    ** Results and loops *)

Lemma bind_Ok {A B : Type} (a : A) (f : A → result B) : Ok a ≫= f = f a.
Proof. done. Qed.

Lemma fmap_Ok {A B : Type} (f : A → B) (m : result A) (b : B) :
  f <$> m = Ok b ↔ ∃ a, m = Ok a ∧ b = f a.
Proof.
  destruct m as [a|e]; simpl; split.
  - intros [= <-]. by exists a.
  - by intros (? & [= <-] & ->).
  - done.
  - by intros (? & ? & _).
Qed.

Lemma bind_eq_Ok {A B : Type} (m : result A) (f : A → result B) (b : B) :
  m ≫= f = Ok b ↔ ∃ a, m = Ok a ∧ f a = Ok b.
Proof.
  destruct m as [a|e]; simpl; split.
  - intros Hf. by exists a.
  - by intros (? & [= <-] & ?).
  - done.
  - by intros (? & ? & _).
Qed.

Lemma for_each_app {A S : Type} (body : A → S → result S) xs ys st :
  for_each body (xs ++ ys) st = st' ← for_each body xs st; for_each body ys st'.
Proof.
  revert st. induction xs as [|x xs IH]; intros st; simpl; [done|].
  destruct (body x st) as [st'|e]; simpl; [apply IH|done].
Qed.

Lemma for_each_fmap {A B S : Type} (f : A → B) (body : B → S → result S) xs st :
  for_each body (f <$> xs) st = for_each (λ x, body (f x)) xs st.
Proof.
  revert st. induction xs as [|x xs IH]; intros st; simpl; [done|].
  destruct (body (f x) st); simpl; [apply IH|done].
Qed.

Lemma for_each_nested {A B S : Type} (inner : A → list B)
    (body : A → B → S → result S) xs st :
  for_each (λ x, for_each (body x) (inner x)) xs st
  = for_each (λ c, body c.1 c.2) (x ← xs; pair x <$> inner x) st.
Proof.
  revert st. induction xs as [|x xs IH]; intros st; [done|].
  rewrite bind_cons, for_each_app, for_each_fmap. simpl.
  destruct (for_each (body x) (inner x) st); simpl; [apply IH|done].
Qed.

(** ** Ranges *)

Lemma range_seqZ n : range n = seqZ 0 n.
Proof.
  unfold range, range3. simpl. replace (n - 0 + 1 - 1) with n by lia.
  rewrite Z.div_1_r. rewrite <- (list_fmap_id (seqZ 0 n)) at 2.
  apply list_fmap_ext. intros _ i _. simpl. lia.
Qed.

Lemma range_down_seqZ n :
  range3 (n - 1) (-1) (-1) = (λ i, n - 1 - i) <$> seqZ 0 n.
Proof.
  unfold range3. simpl. replace (n - 1 - -1 - -1 - 1) with n by lia.
  rewrite Z.div_1_r. apply list_fmap_ext. intros _ i _. simpl. lia.
Qed.

Lemma StronglySorted_seqZ m n : StronglySorted Z.lt (seqZ m n).
Proof.
  destruct (Z.le_gt_cases n 0) as [Hn|Hn].
  { rewrite seqZ_nil by lia. constructor. }
  rewrite <- (Z2Nat.id n) by lia. generalize (Z.to_nat n) as k. clear.
  induction k as [|k IH]; [rewrite seqZ_nil by lia; constructor|].
  rewrite seqZ_S. apply StronglySorted_app_2; [|done|repeat constructor].
  intros x y Hx Hy. apply elem_of_seqZ in Hx. apply list_elem_of_singleton in Hy. lia.
Qed.

(** ** Sorted lists *)

Lemma StronglySorted_bind {A B : Type} (R1 : relation A) (R2 : relation B)
    (f : A → list B) (l : list A) :
  StronglySorted R1 l →
  (∀ x, x ∈ l → StronglySorted R2 (f x)) →
  (∀ x y a b, R1 x y → a ∈ f x → b ∈ f y → R2 a b) →
  StronglySorted R2 (l ≫= f).
Proof.
  intros Hl Hin Hout. induction Hl as [|x l Hl IH Hx]; [constructor|].
  rewrite bind_cons. apply StronglySorted_app_2.
  - intros a b Ha Hb. apply list_elem_of_bind in Hb as (y & Hb & Hy).
    rewrite Forall_forall in Hx. eapply Hout; [|done..]. by apply Hx.
  - apply Hin. left.
  - apply IH. intros y Hy. apply Hin. by right.
Qed.

Lemma StronglySorted_sublist {A : Type} (R : relation A) (l k : list A) :
  l `sublist_of` k → StronglySorted R k → StronglySorted R l.
Proof.
  induction 1 as [|x l k Hlk IH|x l k Hlk IH]; intros Hk; [done|..].
  - apply StronglySorted_cons in Hk as [Hx Hk].
    apply StronglySorted_cons. split; [|by apply IH].
    rewrite Forall_forall in *. intros y Hy. apply Hx.
    by eapply sublist_subseteq.
  - apply StronglySorted_cons in Hk as [_ Hk]. by apply IH.
Qed.

Lemma StronglySorted_lookup {A : Type} (R : relation A) (l : list A) i j x y :
  StronglySorted R l → l !! i = Some x → l !! j = Some y → (i < j)%nat → R x y.
Proof.
  intros Hl. revert i j. induction Hl as [|z l Hl IH Hz]; intros i j Hi Hj Hij.
  { by rewrite lookup_nil in Hi. }
  destruct j as [|j]; [lia|]. simpl in Hj. destruct i as [|i]; simpl in Hi.
  - injection Hi as ->. rewrite Forall_forall in Hz. apply Hz.
    by eapply list_elem_of_lookup_2.
  - eapply IH; [done..|lia].
Qed.

(** ** The walk of the grid generator *)

Section grid_facts.
Context `{Libm}.
Variables (center_lat center_lon radius_miles : float) (zoom_level : Z).
Import GridCalculator.

Abbreviation cell := GridCalculator.cell.
Abbreviation made_at :=
  (made_at center_lat center_lon radius_miles zoom_level).
Abbreviation visit := (visit center_lat center_lon radius_miles zoom_level).
Abbreviation retained := (retained center_lat center_lon radius_miles zoom_level).
Abbreviation calculate_scan_grid :=
  (calculate_scan_grid center_lat center_lon radius_miles zoom_level).
Abbreviation row_lat := (row_lat center_lat radius_miles zoom_level).
Abbreviation col_lon := (col_lon center_lon radius_miles zoom_level).
Abbreviation distance_to row col :=
  (_distance_miles center_lat center_lon (row_lat row) (col_lon col)).

Lemma elem_of_cols g row col : col ∈ cols g row ↔ 0 ≤ col < g.
Proof.
  unfold cols. destruct (row mod 2 =? 0).
  - rewrite range_seqZ, elem_of_seqZ. lia.
  - rewrite range_down_seqZ, list_elem_of_fmap. setoid_rewrite elem_of_seqZ.
    split; [intros (i & -> & ?); lia|].
    intros ?. exists (g - 1 - col). lia.
Qed.

Lemma elem_of_traversal g row col :
  (row, col) ∈ traversal g ↔ 0 ≤ row < g ∧ 0 ≤ col < g.
Proof.
  unfold traversal. rewrite list_elem_of_bind. split.
  - intros (r & Hc & Hr). apply list_elem_of_fmap in Hc as (c & [= -> ->] & Hc).
    apply elem_of_cols in Hc. rewrite range_seqZ, elem_of_seqZ in Hr. lia.
  - intros [Hr Hc]. exists row. split.
    + apply list_elem_of_fmap. exists col. by rewrite elem_of_cols.
    + rewrite range_seqZ, elem_of_seqZ. lia.
Qed.

(** The two loops retain what [retained] does. *)
Lemma visit_retained cells grid_points point_id :
  for_each (λ c, visit c.1 c.2) cells (grid_points, point_id)
  = (λ new, (grid_points ++ new, point_id + len new)) <$> retained cells point_id.
Proof.
  revert grid_points point_id.
  induction cells as [|[row col] cells IH]; intros grid_points point_id; simpl.
  { by rewrite app_nil_r, Z.add_0_r. }
  destruct (_distance_miles _ _ _ _) as [distance|e]; simpl; [|done].
  destruct (distance <=? radius_miles)%float.
  - rewrite bind_Ok, IH. destruct (retained cells (point_id + 1)) as [new|e]; simpl; [|done].
    rewrite <- app_assoc. simpl. do 2 f_equal. unfold len. simpl. lia.
  - rewrite bind_Ok. apply IH.
Qed.

Lemma scan_retained :
  calculate_scan_grid
  = g ← grid_size radius_miles zoom_level; retained (traversal g) 0.
Proof.
  unfold calculate_scan_grid.
  destruct (grid_size radius_miles zoom_level) as [g|e]; simpl; [|done].
  rewrite for_each_nested. unfold traversal.
  rewrite visit_retained.
  by destruct (retained _ 0).
Qed.

Lemma traversal_sorted g : StronglySorted walk_before (traversal g).
Proof.
  unfold traversal. rewrite range_seqZ.
  apply (StronglySorted_bind Z.lt); [apply StronglySorted_seqZ|..].
  - intros row _. unfold cols. destruct (row mod 2 =? 0) eqn:Hrow.
    + rewrite range_seqZ.
      apply (StronglySorted_fmap _ Z.lt); [|apply StronglySorted_seqZ].
      intros c1 c2 Hc. right. simpl. rewrite Hrow. done.
    + rewrite range_down_seqZ, <- list_fmap_compose.
      apply (StronglySorted_fmap _ Z.lt); [|apply StronglySorted_seqZ].
      intros c1 c2 Hc. right. simpl. rewrite Hrow. lia.
  - intros r1 r2 a b Hr Ha Hb.
    apply list_elem_of_fmap in Ha as (? & -> & _).
    apply list_elem_of_fmap in Hb as (? & -> & _). by left.
Qed.

Lemma retained_cons_inv row col cells point_id pts :
  retained ((row, col) :: cells) point_id = Ok pts →
  ∃ distance, distance_to row col = Ok distance ∧
    if (distance <=? radius_miles)%float
    then ∃ pts', retained cells (point_id + 1) = Ok pts'
           ∧ pts = grid_point point_id (row_lat row) (col_lon col) row col
                     distance zoom_level :: pts'
    else retained cells point_id = Ok pts.
Proof.
  simpl. intros (distance & Hd & Hpts)%bind_eq_Ok. exists distance.
  split; [done|]. destruct (distance <=? radius_miles)%float; [|done].
  apply fmap_Ok in Hpts as (pts' & ? & ->). by exists pts'.
Qed.

Lemma retained_ids cells point_id pts :
  retained cells point_id = Ok pts →
  GridPoint.id <$> pts = seqZ point_id (len pts).
Proof.
  revert point_id pts.
  induction cells as [|[row col] cells IH]; intros point_id pts Hpts.
  { injection Hpts as <-. done. }
  apply retained_cons_inv in Hpts as (distance & _ & Hpts).
  destruct (distance <=? radius_miles)%float; [|by apply IH].
  destruct Hpts as (pts' & Hpts' & ->). apply IH in Hpts'.
  unfold len in *. rewrite fmap_cons, Hpts'. simpl length.
  rewrite (seqZ_cons point_id) by lia. simpl. do 2 f_equal; lia.
Qed.

Lemma retained_made_at cells point_id pts :
  retained cells point_id = Ok pts →
  Forall (λ p, cell p ∈ cells ∧ ∃ distance, made_at p distance) pts.
Proof.
  revert point_id pts.
  induction cells as [|[row col] cells IH]; intros point_id pts Hpts.
  { injection Hpts as <-. constructor. }
  apply retained_cons_inv in Hpts as (distance & Hd & Hpts).
  destruct (distance <=? radius_miles)%float eqn:Hle.
  - destruct Hpts as (pts' & Hpts' & ->). constructor.
    + split; [left|]. by exists distance.
    + eapply Forall_impl; [by eapply IH|]. intros p [? ?]. split; [by right|done].
  - eapply Forall_impl; [by eapply IH|]. intros p [? ?]. split; [by right|done].
Qed.

Lemma retained_sublist cells point_id pts :
  retained cells point_id = Ok pts → cell <$> pts `sublist_of` cells.
Proof.
  revert point_id pts.
  induction cells as [|[row col] cells IH]; intros point_id pts Hpts.
  { injection Hpts as <-. constructor. }
  apply retained_cons_inv in Hpts as (distance & Hd & Hpts).
  destruct (distance <=? radius_miles)%float.
  - destruct Hpts as (pts' & Hpts' & ->). rewrite fmap_cons.
    apply sublist_skip. by eapply IH.
  - apply sublist_cons. by eapply IH.
Qed.

Lemma retained_complete cells point_id pts row col :
  retained cells point_id = Ok pts → (row, col) ∈ cells →
  ∃ distance, distance_to row col = Ok distance
    ∧ ((distance <=? radius_miles)%float = true →
       ∃ p, p ∈ pts ∧ cell p = (row, col)).
Proof.
  revert point_id pts.
  induction cells as [|[row' col'] cells IH]; intros point_id pts Hpts Hin.
  { by apply elem_of_nil in Hin. }
  apply retained_cons_inv in Hpts as (distance & Hd & Hpts).
  apply elem_of_cons in Hin as [[= -> ->]|Hin].
  - exists distance. split; [done|]. intros Hle. rewrite Hle in Hpts.
    destruct Hpts as (pts' & _ & ->). eexists. split; [left|done].
  - destruct (distance <=? radius_miles)%float.
    + destruct Hpts as (pts' & Hpts' & ->).
      destruct (IH _ _ Hpts' Hin) as (d & ? & Hp). exists d. split; [done|].
      intros Hle. destruct (Hp Hle) as (p & ? & ?). exists p. split; [by right|done].
    + by eapply IH.
Qed.
End grid_facts.

(** ** Signs of float results *)

Lemma SFnonneg_alt x :
  PyFloat.SFnonneg x = match x with
               | S754_infinity s | S754_finite s _ _ => negb s
               | _ => true
               end.
Proof. by destruct x as [[]|[]| |[] ? ?]. Qed.

(** Rounding keeps the sign it is given. *)
Lemma binary_round_aux_sign s m e l :
  match binary_round_aux prec emax s m e l with
  | S754_zero s' | S754_infinity s' | S754_finite s' _ _ => s' = s
  | S754_nan => True
  end.
Proof.
  unfold binary_round_aux.
  destruct (shr_fexp _ _ _ _ _) as [mrs' e'].
  destruct (shr_fexp _ _ _ _ _) as [mrs'' e''].
  destruct (shr_m mrs''); [done| |done].
  by destruct (_ <=? _).
Qed.

Lemma binary_round_aux_nonneg m e l :
  PyFloat.SFnonneg (binary_round_aux prec emax false m e l) = true.
Proof.
  pose proof (binary_round_aux_sign false m e l) as Hs. rewrite SFnonneg_alt.
  by destruct (binary_round_aux _ _ _ _ _ _) as [[]|[]| |[] ? ?].
Qed.

Lemma SFmul_nonneg x y :
  PyFloat.SFnonneg x = true → PyFloat.SFnonneg y = true → PyFloat.SFnonneg (SFmul prec emax x y) = true.
Proof.
  intros Hx Hy. rewrite SFnonneg_alt in Hx, Hy.
  destruct x as [[]|[]| |[] ? ?], y as [[]|[]| |[] ? ?]; try done.
  apply binary_round_aux_nonneg.
Qed.

Lemma SFsqrt_nonneg x : PyFloat.SFnonneg (SFsqrt prec emax x) = true.
Proof.
  destruct x as [[]|[]| |[] m e]; try done. unfold SFsqrt.
  destruct (SFsqrt_core_binary _ _ _ _) as [[mz ez] lz].
  apply binary_round_aux_nonneg.
Qed.

Lemma SFleb_nonneg_negative d r :
  PyFloat.SFnonneg d = true → SFltb r (S754_zero false) = true → SFleb d r = false.
Proof.
  intros Hd. rewrite SFnonneg_alt in Hd.
  by destruct d as [[]|[]| |[] ? ?], r as [[]|[]| |[] ? ?].
Qed.

Lemma nonneg_spec x : PyFloat.nonneg x = PyFloat.SFnonneg (Prim2SF x).
Proof. unfold PyFloat.nonneg. by rewrite ltb_spec. Qed.

Lemma mul_nonneg x y :
  PyFloat.nonneg x = true → PyFloat.nonneg y = true →
  PyFloat.nonneg (x * y) = true.
Proof. rewrite !nonneg_spec, mul_spec. apply SFmul_nonneg. Qed.

Lemma sqrt_nonneg x : PyFloat.nonneg (sqrt x) = true.
Proof. rewrite nonneg_spec, sqrt_spec. apply SFsqrt_nonneg. Qed.

Lemma abs_nonneg x : PyFloat.nonneg (abs x) = true.
Proof.
  rewrite nonneg_spec, abs_spec, SFnonneg_alt.
  by destruct (Prim2SF x) as [[]|[]| |[] ? ?].
Qed.

Lemma leb_nonneg_negative d r :
  PyFloat.nonneg d = true → (r <? 0)%float = true → (d <=? r)%float = false.
Proof. rewrite nonneg_spec, ltb_spec, leb_spec. apply SFleb_nonneg_negative. Qed.

(** A square root has its sign bit set only at [-0.0]. *)
Lemma sqrt_signbit x : PyFloat.signbit (sqrt x) = true → x = neg_zero.
Proof.
  unfold PyFloat.signbit. rewrite sqrt_spec. intros Hs.
  apply Prim2SF_inj. destruct (Prim2SF x) as [[]|[]| |[] m e]; try done.
  unfold SF64sqrt, SFsqrt in Hs.
  destruct (SFsqrt_core_binary _ _ _ _) as [[mz ez] lz].
  pose proof (binary_round_aux_sign false mz ez lz) as Hn.
  destruct (binary_round_aux _ _ _ _ _ _) as [[]|[]| |[] ? ?]; done.
Qed.

Lemma checked1_Ok f x r : math.checked1 f x = Ok r → r = f x.
Proof.
  unfold math.checked1. destruct (_ && _); [done|].
  destruct (_ && _); [done|]. by intros [= <-].
Qed.

Lemma checked2_Ok f x y r : math.checked2 f x y = Ok r → r = f x y.
Proof.
  unfold math.checked2. destruct (_ && _); [done|].
  destruct (_ && _); [done|]. by intros [= <-].
Qed.

Section distance_sign.
Context `{LibmSign}.
#[local] Open Scope float_scope.

Lemma atan2_sqrt_nonneg a :
  PyFloat.nonneg (libm_atan2 (sqrt a) (sqrt (1 - a))) = true.
Proof.
  unfold PyFloat.nonneg. destruct (_ <? 0) eqn:Hneg; [exfalso|done].
  apply atan2_negative in Hneg as [Hq|[Hq1 Hq2]].
  - pose proof (sqrt_nonneg a) as Hn. unfold PyFloat.nonneg in Hn. by rewrite Hq in Hn.
  - apply sqrt_signbit in Hq1 as ->. by vm_compute in Hq2.
Qed.

(** The haversine distance is never negative. *)
Lemma distance_nonneg lat1 lon1 lat2 lon2 distance :
  GridCalculator._distance_miles lat1 lon1 lat2 lon2 = Ok distance →
  PyFloat.nonneg distance = true.
Proof.
  unfold GridCalculator._distance_miles.
  intros (s1 & _ & (s2 & _ & (c1 & _ & (c2 & _ & (s3 & _ & (s4 & _ &
    (q1 & Hq1%checked1_Ok & (q2 & Hq2%checked1_Ok & (t & Ht%checked2_Ok
       & [= <-])%bind_eq_Ok)%bind_eq_Ok)%bind_eq_Ok)%bind_eq_Ok)%bind_eq_Ok
    )%bind_eq_Ok)%bind_eq_Ok)%bind_eq_Ok)%bind_eq_Ok.
  subst q1 q2 t. apply mul_nonneg; [done|]. apply mul_nonneg; [done|].
  apply atan2_sqrt_nonneg.
Qed.
End distance_sign.

(** The reference [atan2] has the sign of its first argument. *)
Lemma reference_atan2_negative : @LibmSign Reference.libm.
Proof.
  intros y x. simpl. unfold Reference.atan2.
  destruct (is_nan y || is_nan x); [done|].
  destruct (PyFloat.signbit y) eqn:Hy.
  - intros Hneg.
    destruct (y <? 0)%float eqn:Hlt; [by left|right; split; [done|]].
    assert (y = neg_zero) as ->.
    { apply Prim2SF_inj. unfold PyFloat.signbit in Hy.
      rewrite ltb_spec in Hlt.
      by destruct (Prim2SF y) as [[]|[]| |[] ? ?]. }
    destruct (PyFloat.signbit x) eqn:Hx; [done|exfalso].
    revert Hneg. unfold Reference.angle. rewrite Hx.
    replace (abs neg_zero) with 0%float by done.
    replace (is_infinity 0) with false by done.
    replace (is_zero 0) with true by done.
    by destruct (is_infinity (abs x)).
  - intros Hneg. pose proof (abs_nonneg (Reference.angle (abs y) x)) as Hn.
    unfold PyFloat.nonneg in Hn. by rewrite Hneg in Hn.
Qed.

(** ** Rounding to nearest never passes a representable bound *)

Lemma iter_pos_nat {A : Type} (f : A → A) (p : positive) (x : A) :
  SpecFloat.iter_pos f p x = Nat.iter (Pos.to_nat p) f x.
Proof.
  revert x. induction p as [p IH|p IH|]; intros x.
  - cbn [SpecFloat.iter_pos]. rewrite !IH, Pos2Nat.inj_xI.
    replace (S (2 * Pos.to_nat p)) with (Pos.to_nat p + S (Pos.to_nat p))%nat
      by lia.
    by rewrite Nat.iter_add, Nat.iter_succ_r.
  - cbn [SpecFloat.iter_pos]. rewrite !IH, Pos2Nat.inj_xO.
    replace (2 * Pos.to_nat p)%nat with (Pos.to_nat p + Pos.to_nat p)%nat
      by lia.
    by rewrite Nat.iter_add.
  - done.
Qed.

Lemma digits2_pos_log2 (p : positive) :
  Z.pos (digits2_pos p) = Z.log2 (Z.pos p) + 1.
Proof.
  assert (∀ q, digits2_pos q = Pos.size q) as Hsize.
  { induction q; simpl; congruence. }
  destruct p; simpl; rewrite ?Hsize; lia.
Qed.

Lemma Zdigits2_log2 (m : Z) : 0 < m → Zdigits2 m = Z.log2 m + 1.
Proof. destruct m; [lia| |lia]. intros _. apply digits2_pos_log2. Qed.

Lemma Zdigits2_mono (a b : Z) : 0 < a ≤ b → Zdigits2 a ≤ Zdigits2 b.
Proof.
  intros Hab. rewrite !Zdigits2_log2 by lia.
  pose proof (Z.log2_le_mono a b). lia.
Qed.

Lemma Zdigits2_shift (a k : Z) :
  0 < a → 0 ≤ k → Zdigits2 (a * 2 ^ k) = Zdigits2 a + k.
Proof.
  intros Ha Hk. pose proof (Z.pow_pos_nonneg 2 k).
  rewrite !Zdigits2_log2 by nia. rewrite Z.log2_mul_pow2 by lia. lia.
Qed.

Lemma fexp_mono (a b : Z) : a ≤ b → fexp prec emax a ≤ fexp prec emax b.
Proof. unfold fexp. lia. Qed.

Lemma shr_1_spec (mrs : shr_record) :
  0 ≤ shr_m mrs →
  shr_m (shr_1 mrs) = shr_m mrs / 2
  ∧ shr_r (shr_1 mrs) = Z.odd (shr_m mrs)
  ∧ shr_s (shr_1 mrs) = shr_r mrs || shr_s mrs.
Proof.
  destruct mrs as [m r s]. simpl. intros Hm. rewrite <- Z.div2_div.
  by destruct m as [|[p|p|]|].
Qed.

(** [k] shifts to the right leave the quotient by [2^k], and raise a flag
    only when the division is inexact. *)
Lemma shr_iter (m : Z) (k : nat) :
  0 ≤ m →
  let mrs := Nat.iter k shr_1 {| shr_m := m; shr_r := false; shr_s := false |} in
  shr_m mrs = m / 2 ^ Z.of_nat k
  ∧ (shr_r mrs || shr_s mrs = true → m mod 2 ^ Z.of_nat k ≠ 0).
Proof.
  intros Hm. induction k as [|k [IHm IHf]]; simpl.
  { split; [by rewrite Z.div_1_r|done]. }
  set (mrs := Nat.iter k shr_1 _) in *.
  assert (0 < 2 ^ Z.of_nat k) as Hpos by (apply Z.pow_pos_nonneg; lia).
  assert (2 ^ Z.of_nat (S k) = 2 ^ Z.of_nat k * 2) as Hpow.
  { rewrite Nat2Z.inj_succ, Z.pow_succ_r by lia. lia. }
  destruct (shr_1_spec mrs) as (Hm' & Hr' & Hs').
  { rewrite IHm. apply Z.div_pos; lia. }
  rewrite Hm', Hr', Hs', IHm, Hpow. split.
  { rewrite Z.div_div by lia. done. }
  intros Hflag Hmod.
  assert (m mod 2 ^ Z.of_nat k = 0 ∧ Z.odd (m / 2 ^ Z.of_nat k) = false)
    as [Hmod' Hodd].
  { apply Z.mod_divide in Hmod as [q Hq]; [|lia]. subst m. split.
    - apply Z.mod_divide; [lia|]. exists (q * 2). lia.
    - replace (q * (2 ^ Z.of_nat k * 2)) with (2 * q * 2 ^ Z.of_nat k) by lia.
      rewrite Z.div_mul by lia. rewrite Z.odd_mul. done. }
  rewrite Hodd in Hflag. simpl in Hflag.
  destruct (shr_r mrs || shr_s mrs); [by apply IHf|done].
Qed.

Lemma round_nearest_even_bounds (mrs : shr_record) :
  let m := round_nearest_even (shr_m mrs) (loc_of_shr_record mrs) in
  shr_m mrs ≤ m ≤ shr_m mrs + (if shr_r mrs || shr_s mrs then 1 else 0).
Proof. destruct mrs as [m [] []]; simpl; try destruct (Z.even m); lia. Qed.

(** The first stage of [binary_round_aux]: the mantissa is shifted to the
    exponent the format gives its magnitude, and rounded. *)
Lemma shr_fexp_round (m : positive) (e : Z) :
  let e' := Z.max e (fexp prec emax (Zdigits2 (Z.pos m) + e)) in
  let m1 :=
    round_nearest_even
      (shr_m (shr_fexp prec emax (Z.pos m) e loc_Exact).1)
      (loc_of_shr_record (shr_fexp prec emax (Z.pos m) e loc_Exact).1) in
  (shr_fexp prec emax (Z.pos m) e loc_Exact).2 = e'
  ∧ 0 ≤ m1
  ∧ ∀ b, Z.pos m ≤ b * 2 ^ (e' - e) → m1 ≤ b.
Proof.
  intros e' m1. subst e' m1. unfold shr_fexp, shr.
  set (f := fexp prec emax (Zdigits2 (Z.pos m) + e)).
  destruct (f - e) as [|p|p] eqn:Hn; clearbody f;
    cbn [fst snd shr_record_of_loc].
  - replace (Z.max e f) with e by lia. rewrite Z.sub_diag. simpl.
    split; [done|]. split; [lia|]. intros b. lia.
  - replace (Z.max e f) with (e + Z.pos p) by lia.
    replace (e + Z.pos p - e) with (Z.pos p) by lia.
    rewrite iter_pos_nat.
    destruct (shr_iter (Z.pos m) (Pos.to_nat p)) as [Hq Hflag]; [lia|].
    rewrite positive_nat_Z in Hq, Hflag.
    set (mrs := Nat.iter _ _ _) in *.
    pose proof (round_nearest_even_bounds mrs) as Hr. simpl in Hr.
    assert (0 < 2 ^ Z.pos p) as Hpos by (apply Z.pow_pos_nonneg; lia).
    pose proof (Z.div_pos (Z.pos m) (2 ^ Z.pos p)) as Hq0.
    split; [done|]. split; [lia|]. intros b Hb.
    pose proof (Z.div_mod (Z.pos m) (2 ^ Z.pos p)) as Hdm.
    pose proof (Z.mod_pos_bound (Z.pos m) (2 ^ Z.pos p) Hpos) as Hrem.
    destruct (shr_r mrs || shr_s mrs).
    + specialize (Hflag eq_refl). nia.
    + nia.
  - replace (Z.max e f) with e by lia. rewrite Z.sub_diag. simpl.
    split; [done|]. split; [lia|]. intros b. lia.
Qed.

(** The second stage: a mantissa that rounding made too long is shifted
    once more. *)
Lemma shr_fexp_exact (m1 e' : Z) :
  0 ≤ m1 →
  let e'' := Z.max e' (fexp prec emax (Zdigits2 m1 + e')) in
  (shr_fexp prec emax m1 e' loc_Exact).2 = e''
  ∧ shr_m (shr_fexp prec emax m1 e' loc_Exact).1 = m1 / 2 ^ (e'' - e').
Proof.
  intros Hm e''. subst e''. unfold shr_fexp, shr.
  set (f := fexp prec emax (Zdigits2 m1 + e')).
  destruct (f - e') as [|p|p] eqn:Hn; clearbody f;
    cbn [fst snd shr_record_of_loc].
  - replace (Z.max e' f) with e' by lia.
    by rewrite Z.sub_diag, Z.div_1_r.
  - replace (Z.max e' f) with (e' + Z.pos p) by lia.
    replace (e' + Z.pos p - e') with (Z.pos p) by lia.
    rewrite iter_pos_nat.
    destruct (shr_iter m1 (Pos.to_nat p)) as [Hq _]; [lia|].
    by rewrite positive_nat_Z in Hq.
  - replace (Z.max e' f) with e' by lia.
    by rewrite Z.sub_diag, Z.div_1_r.
Qed.

(** Rounding a positive mantissa gives no NaN. *)
Lemma binary_round_aux_not_nan (s : bool) (m : positive) (e : Z) :
  binary_round_aux prec emax s (Z.pos m) e loc_Exact ≠ S754_nan.
Proof.
  unfold binary_round_aux.
  destruct (shr_fexp_round m e) as (He' & Hm1 & _).
  destruct (shr_fexp prec emax (Z.pos m) e loc_Exact) as [mrs' e1].
  cbn [fst snd] in *.
  destruct (shr_fexp_exact _ e1 Hm1) as [_ Hmf]. cbv zeta in Hmf.
  destruct (shr_fexp prec emax _ e1 loc_Exact) as [mrs'' e2].
  cbn [fst snd] in *.
  assert (0 ≤ shr_m mrs'').
  { rewrite Hmf. apply Z.div_pos; [done|]. apply Z.pow_pos_nonneg; lia. }
  destruct (shr_m mrs''); [done| |lia]. by destruct (_ <=? _).
Qed.

(** Rounding [m * 2^e] gives at most [b * 2^eb] when that is at least
    [m * 2^e] and has a mantissa no longer than the format's. *)
Lemma binary_round_aux_le (m : positive) (e b eb : Z) :
  let e' := Z.max e (fexp prec emax (Zdigits2 (Z.pos m) + e)) in
  0 < b → e' ≤ eb → fexp prec emax (Zdigits2 b + eb) ≤ eb →
  eb ≤ emax - prec →
  Z.pos m ≤ b * 2 ^ (eb - e) →
  match binary_round_aux prec emax false (Z.pos m) e loc_Exact with
  | S754_zero s => s = false
  | S754_finite s mf ef =>
      s = false ∧ e' ≤ ef ≤ eb
      ∧ Z.pos mf * 2 ^ (ef - e') ≤ b * 2 ^ (eb - e')
  | _ => False
  end.
Proof.
  intros e' Hb He' Hcan Hmax Hle. unfold binary_round_aux.
  destruct (shr_fexp_round m e) as (He1 & Hm1 & Hup).
  fold e' in He1, Hup.
  destruct (shr_fexp prec emax (Z.pos m) e loc_Exact) as [mrs' e1].
  cbn [fst snd] in *. subst e1.
  set (m1 := round_nearest_even _ _) in *.
  assert (e ≤ e') as Hee' by (unfold e'; lia).
  assert (0 < 2 ^ (eb - e')) as Hp1 by (apply Z.pow_pos_nonneg; lia).
  assert (m1 ≤ b * 2 ^ (eb - e')) as Hm1b.
  { apply Hup. rewrite <- Z.mul_assoc, <- Z.pow_add_r by lia.
    by replace (eb - e' + (e' - e)) with (eb - e) by lia. }
  destruct (shr_fexp_exact m1 e' Hm1) as [He2 Hmf].
  destruct (shr_fexp prec emax m1 e' loc_Exact) as [mrs'' e2].
  cbn [fst snd] in *. cbv zeta in Hmf. rewrite <- He2 in Hmf.
  assert (0 < 2 ^ (e2 - e')) as Hp2 by (apply Z.pow_pos_nonneg; lia).
  assert (shr_m mrs'' * 2 ^ (e2 - e') ≤ m1) as Hfloor.
  { rewrite Hmf. rewrite Z.mul_comm. apply Z.mul_div_le. done. }
  destruct (shr_m mrs'') as [|mf|mf] eqn:Hmrs; [done| |].
  - assert (0 < m1) as Hm1pos by nia.
    assert (e2 ≤ eb) as He2b.
    { rewrite He2. apply Z.max_lub; [done|].
      etrans; [|exact Hcan]. apply fexp_mono.
      pose proof (Zdigits2_mono m1 (b * 2 ^ (eb - e'))) as Hd.
      rewrite Zdigits2_shift in Hd by lia. lia. }
    destruct (Z.leb_spec e2 (emax - prec)); [|lia].
    split; [done|]. split; [lia|]. lia.
  - assert (0 ≤ m1 / 2 ^ (e2 - e')) by (apply Z.div_pos; lia). lia.
Qed.

Lemma pos_iter_xO (m d : positive) :
  Z.pos (Pos.iter xO m d) = Z.pos m * 2 ^ Z.pos d.
Proof.
  induction d as [|d IH] using Pos.peano_ind; [simpl; lia|].
  rewrite Pos.iter_succ, Pos2Z.inj_succ, Z.pow_succ_r by lia.
  rewrite Pos2Z.inj_xO, IH. lia.
Qed.

Lemma shl_align_spec (mx : positive) (ex ex' : Z) :
  (shl_align mx ex ex').2 = Z.min ex ex'
  ∧ Z.pos (shl_align mx ex ex').1 = Z.pos mx * 2 ^ (ex - Z.min ex ex').
Proof.
  unfold shl_align. destruct (ex' - ex) as [|d|d] eqn:Hd; cbn [fst snd].
  - replace (Z.min ex ex') with ex by lia. rewrite Z.sub_diag. simpl. lia.
  - replace (Z.min ex ex') with ex by lia. rewrite Z.sub_diag. simpl. lia.
  - replace (Z.min ex ex') with ex' by lia.
    replace (ex - ex') with (Z.pos d) by lia. split; [done|].
    apply pos_iter_xO.
Qed.

Lemma binary_round_not_nan (s : bool) (m : positive) (e : Z) :
  binary_round prec emax s m e ≠ S754_nan.
Proof.
  unfold binary_round. destruct (shl_align _ _ _).
  apply binary_round_aux_not_nan.
Qed.

Lemma binary_round_sign (s : bool) (m : positive) (e : Z) :
  match binary_round prec emax s m e with
  | S754_zero s' | S754_infinity s' | S754_finite s' _ _ => s' = s
  | S754_nan => False
  end.
Proof.
  pose proof (binary_round_not_nan s m e) as Hn. unfold binary_round in *.
  destruct (shl_align _ _ _) as [mz ez].
  pose proof (binary_round_aux_sign s (Z.pos mz) ez loc_Exact) as Hs.
  by destruct (binary_round_aux _ _ _ _ _ _).
Qed.

(** Rounding a value below a float of the format gives no more than that
    float. *)
Lemma binary_round_le (m : positive) (e : Z) (mx : positive) (ex : Z) :
  bounded prec emax mx ex = true → e ≤ ex →
  Z.pos m ≤ Z.pos mx * 2 ^ (ex - e) →
  match binary_round prec emax false m e with
  | S754_zero s => s = false
  | S754_finite s mf ef =>
      s = false
      ∧ ∃ e', e' ≤ ef ≤ ex
          ∧ Z.pos mf * 2 ^ (ef - e') ≤ Z.pos mx * 2 ^ (ex - e')
  | _ => False
  end.
Proof.
  unfold bounded, canonical_mantissa.
  intros [Hcan%Z.eqb_eq Hmax%Z.leb_le]%andb_prop Hex Hle.
  unfold binary_round.
  destruct (shl_align_spec m e
              (fexp prec emax (Z.pos (digits2_pos m) + e))) as [Hez Hmz].
  destruct (shl_align _ _ _) as [mz ez]. cbn [fst snd] in *.
  rewrite <- Hez in Hmz.
  assert (ez ≤ e) as Hez' by lia. clear Hez.
  assert (0 < 2 ^ (e - ez)) by (apply Z.pow_pos_nonneg; lia).
  assert (0 < 2 ^ (ex - e)) by (apply Z.pow_pos_nonneg; lia).
  assert (Zdigits2 (Z.pos mz) + ez = Z.pos (digits2_pos m) + e) as Hmag.
  { rewrite Hmz. change (Z.pos (digits2_pos m)) with (Zdigits2 (Z.pos m)).
    rewrite Zdigits2_shift by lia. lia. }
  assert (Z.pos (digits2_pos m) + e ≤ Z.pos (digits2_pos mx) + ex) as Hmag'.
  { change (Z.pos (digits2_pos m)) with (Zdigits2 (Z.pos m)).
    change (Z.pos (digits2_pos mx)) with (Zdigits2 (Z.pos mx)).
    pose proof (Zdigits2_mono (Z.pos m) (Z.pos mx * 2 ^ (ex - e))) as Hd.
    rewrite Zdigits2_shift in Hd by lia. lia. }
  pose proof (binary_round_aux_le mz ez (Z.pos mx) ex) as Hr. cbv zeta in Hr.
  rewrite Hmag in Hr.
  pose proof (fexp_mono _ _ Hmag') as Hf. rewrite Hcan in Hf.
  specialize (Hr ltac:(lia) ltac:(lia)).
  change (Zdigits2 (Z.pos mx)) with (Z.pos (digits2_pos mx)) in Hr.
  rewrite Hcan in Hr. specialize (Hr ltac:(lia) Hmax).
  assert (Z.pos mz ≤ Z.pos mx * 2 ^ (ex - ez)) as Hle'.
  { rewrite Hmz. replace (ex - ez) with (ex - e + (e - ez)) by lia.
    rewrite Z.pow_add_r by lia. nia. }
  specialize (Hr Hle').
  destruct (binary_round_aux _ _ _ _ _ _) as [s|s| |s mf ef]; try done.
  destruct Hr as (-> & Hef & Hval). split; [done|]. by eexists.
Qed.

(** ** An index that is a [float] *)

(** The two sides of a comparison brought to one power of two. *)
Lemma SFint_lt_scale (z : Z) (s : bool) (m : positive) (e k : Z) :
  0 ≤ k → 0 ≤ e + k →
  SFint_lt z (S754_finite s m e)
  = (z * 2 ^ k <? cond_Zopp s (Z.pos m) * 2 ^ (e + k)).
Proof.
  intros Hk Hek. unfold SFint_lt. apply Bool.eq_iff_eq_true.
  destruct (Z.leb_spec 0 e); rewrite !Z.ltb_lt.
  - rewrite Z.pow_add_r, Z.mul_assoc by lia.
    apply Z.mul_lt_mono_pos_r, Z.pow_pos_nonneg; lia.
  - replace k with (- e + (e + k)) at 1 by lia.
    rewrite Z.pow_add_r, Z.mul_assoc by lia.
    apply Z.mul_lt_mono_pos_r, Z.pow_pos_nonneg; lia.
Qed.

Lemma SFlt_int_scale (z : Z) (s : bool) (m : positive) (e k : Z) :
  0 ≤ k → 0 ≤ e + k →
  SFlt_int (S754_finite s m e) z
  = (cond_Zopp s (Z.pos m) * 2 ^ (e + k) <? z * 2 ^ k).
Proof.
  intros Hk Hek. unfold SFlt_int. apply Bool.eq_iff_eq_true.
  destruct (Z.leb_spec 0 e); rewrite !Z.ltb_lt.
  - rewrite Z.pow_add_r, Z.mul_assoc by lia.
    apply Z.mul_lt_mono_pos_r, Z.pow_pos_nonneg; lia.
  - replace (z * 2 ^ k) with (z * 2 ^ (- e) * 2 ^ (e + k)).
    { apply Z.mul_lt_mono_pos_r, Z.pow_pos_nonneg; lia. }
    rewrite <- Z.mul_assoc, <- Z.pow_add_r by lia. do 2 f_equal. lia.
Qed.

Lemma SFint_lt_positive (z : Z) (m : positive) (e : Z) :
  SFint_lt z (S754_finite false m e) = false → 0 < z.
Proof.
  rewrite (SFint_lt_scale z false m e (Z.max 0 (- e))) by lia.
  intros Hz%Z.ltb_ge. simpl in Hz.
  assert (0 < 2 ^ (e + Z.max 0 (- e))) by (apply Z.pow_pos_nonneg; lia).
  assert (0 < 2 ^ Z.max 0 (- e)) by (apply Z.pow_pos_nonneg; lia).
  nia.
Qed.

Lemma SFint_lt_negative (z : Z) (x : spec_float) :
  0 ≤ z →
  match x with
  | S754_zero _ => True
  | S754_infinity s | S754_finite s _ _ => s = true
  | S754_nan => False
  end →
  SFint_lt z x = false.
Proof.
  intros Hz. destruct x as [s|s| |s m e]; simpl; try done.
  - intros _. lia.
  - by intros ->.
  - intros ->. simpl.
    destruct (Z.leb_spec 0 e).
    + assert (0 < 2 ^ e) by (apply Z.pow_pos_nonneg; lia). apply Z.ltb_ge. nia.
    + assert (0 < 2 ^ (- e)) by (apply Z.pow_pos_nonneg; lia).
      apply Z.ltb_ge. nia.
Qed.

(** Taking a positive float from a float of the format gives no more than
    that float: what an integer is not below stays so. *)
Lemma SFsub_le (mx : positive) (ex : Z) (my : positive) (ey z : Z) :
  bounded prec emax mx ex = true →
  SFint_lt z (S754_finite false mx ex) = false →
  SFsub prec emax (S754_finite false mx ex) (S754_finite false my ey)
    ≠ S754_nan
  ∧ SFint_lt z
      (SFsub prec emax (S754_finite false mx ex) (S754_finite false my ey))
    = false.
Proof.
  intros Hb Hz. pose proof (SFint_lt_positive _ _ _ Hz) as Hz0.
  cbn [SFsub cond_Zopp].
  set (ez := Z.min ex ey).
  destruct (shl_align_spec mx ex ez) as [_ Hx].
  destruct (shl_align_spec my ey ez) as [_ Hy].
  replace (Z.min ex ez) with ez in Hx by lia.
  assert (0 < 2 ^ (ex - ez)) by (apply Z.pow_pos_nonneg; lia).
  destruct (Z.pos (shl_align mx ex ez).1 - Z.pos (shl_align my ey ez).1)
    as [|M|M] eqn:HM; cbn [binary_normalize].
  - split; [done|]. simpl. lia.
  - pose proof (binary_round_le M ez mx ex Hb) as Hr.
    specialize (Hr ltac:(lia) ltac:(lia)).
    destruct (binary_round prec emax false M ez) as [s|s| |s mf ef];
      try done.
    { split; [done|]. simpl. lia. }
    destruct Hr as (-> & e' & Hef & Hval). split; [done|].
    rewrite (SFint_lt_scale z false mx ex (Z.max 0 (- e'))) in Hz by lia.
    rewrite (SFint_lt_scale z false mf ef (Z.max 0 (- e'))) by lia.
    apply Z.ltb_ge in Hz. apply Z.ltb_ge. cbn [cond_Zopp] in *.
    set (k := Z.max 0 (- e')) in *.
    assert (0 < 2 ^ (e' + k)) by (apply Z.pow_pos_nonneg; lia).
    replace (ef + k) with (ef - e' + (e' + k)) by lia.
    replace (ex + k) with (ex - e' + (e' + k)) in Hz by lia.
    rewrite Z.pow_add_r in * by lia. nia.
  - pose proof (binary_round_sign true M ez) as Hs.
    destruct (binary_round prec emax true M ez) as [s|s| |s mf ef] eqn:Hr;
      [| | done |]; (split; [done|]); apply SFint_lt_negative; done || lia.
Qed.

(** Adding a positive float to one that is not below zero gives one that
    is not below zero. *)
Lemma SFadd_nonneg (x : spec_float) (my : positive) (ey : Z) :
  x ≠ S754_nan → SFlt_int x 0 = false →
  SFadd prec emax x (S754_finite false my ey) ≠ S754_nan
  ∧ SFlt_int (SFadd prec emax x (S754_finite false my ey)) 0 = false.
Proof.
  assert (∀ m e, SFlt_int (S754_finite false m e) 0 = false) as Hpos.
  { intros m e. simpl. destruct (_ <=? _); apply Z.ltb_ge; [|lia].
    pose proof (Z.pow_nonneg 2 e). nia. }
  intros Hn Hx. destruct x as [s|s| |s m e]; [| |done|].
  - cbn [SFadd]. split; [done|apply Hpos].
  - simpl in *. by subst s.
  - assert (s = false) as ->.
    { destruct s; [|done]. exfalso. revert Hx. simpl.
      destruct (Z.leb_spec 0 e); intros Hx%Z.ltb_ge; [|lia].
      assert (0 < 2 ^ e) by (apply Z.pow_pos_nonneg; lia). nia. }
    cbn [SFadd cond_Zopp].
    set (a := (shl_align m e _).1). set (b := (shl_align my ey _).1).
    change (Z.pos a + Z.pos b) with (Z.pos (a + b)). cbn [binary_normalize].
    pose proof (binary_round_sign false (a + b) (Z.min e ey)) as Hs.
    destruct (binary_round _ _ _ _ _) as [s|s| |s mf ef]; try done;
      subst s; (split; [done|]); done || apply Hpos.
Qed.

Lemma is_nan_spec (x : float) :
  is_nan x = match Prim2SF x with S754_nan => true | _ => false end.
Proof.
  unfold is_nan. rewrite FloatAxioms.eqb_spec.
  destruct (Prim2SF x) as [[]|[]| |[] m e]; try done;
    unfold SFeqb, SFcompare; by rewrite Z.compare_refl, Pos.compare_cont_refl.
Qed.

Lemma of_int_1 : Prim2SF (PyFloat.of_int 1) = S754_finite false 4503599627370496 (-52).
Proof. reflexivity. Qed.

(** [x + 1] for an index [x] that is not below zero. *)
Lemma float_succ_nonneg (x : float) :
  is_nan x = false → float_lt_int x 0 = false →
  is_nan (x + PyFloat.of_int 1) = false
  ∧ float_lt_int (x + PyFloat.of_int 1) 0 = false.
Proof.
  unfold float_lt_int. rewrite !is_nan_spec, add_spec, of_int_1.
  intros Hn Hx.
  destruct (SFadd_nonneg (Prim2SF x) 4503599627370496 (-52)) as [Hn' Hx'];
    [by destruct (Prim2SF x)|done|].
  unfold SF64add. split; [|done]. by destruct (SFadd _ _ _ _).
Qed.

(** [x - 1] for an index [x] between zero and [z]. *)
Lemma float_pred_le (x : float) (z : Z) :
  is_nan x = false → float_lt_int x 0 = false → int_lt_float z x = false →
  0 ≤ z →
  is_nan (x - PyFloat.of_int 1) = false
  ∧ int_lt_float z (x - PyFloat.of_int 1) = false.
Proof.
  unfold float_lt_int, int_lt_float.
  rewrite !is_nan_spec, sub_spec, of_int_1. unfold SF64sub.
  pose proof (Prim2SF_valid x) as Hv.
  destruct (Prim2SF x) as [s|s| |s m e]; [| |done|].
  - intros _ _ _ Hz. split; [done|]. by apply SFint_lt_negative.
  - simpl. by intros _ -> [=].
  - intros _ Hx Hz Hz0.
    assert (s = false) as ->.
    { destruct s; [|done]. exfalso. revert Hx. simpl.
      destruct (Z.leb_spec 0 e); intros Hx%Z.ltb_ge; [|lia].
      assert (0 < 2 ^ e) by (apply Z.pow_pos_nonneg; lia). nia. }
    destruct (SFsub_le m e 4503599627370496 (-52) z Hv Hz) as [Hn Hle].
    split; [|done]. by destruct (SFsub _ _ _ _).
Qed.

(** An index between zero and [z]: [z] is not negative and the index is
    below [z + 1]. *)
Lemma float_index_bounds (x : float) (z : Z) :
  is_nan x = false → float_lt_int x 0 = false → int_lt_float z x = false →
  0 ≤ z ∧ float_lt_int x (z + 1) = true.
Proof.
  unfold float_lt_int, int_lt_float. rewrite is_nan_spec.
  destruct (Prim2SF x) as [s|s| |s m e]; [| |done|].
  - simpl. intros _ _ Hz%Z.ltb_ge. split; [done|]. apply Z.ltb_lt. lia.
  - simpl. by intros _ -> [=].
  - intros _ Hx Hz.
    assert (s = false) as ->.
    { destruct s; [|done]. exfalso. revert Hx. simpl.
      destruct (Z.leb_spec 0 e); intros Hx%Z.ltb_ge; [|lia].
      assert (0 < 2 ^ e) by (apply Z.pow_pos_nonneg; lia). nia. }
    pose proof (SFint_lt_positive _ _ _ Hz). split; [lia|].
    rewrite (SFint_lt_scale z false m e (Z.max 0 (- e))) in Hz by lia.
    rewrite (SFlt_int_scale (z + 1) false m e (Z.max 0 (- e))) by lia.
    apply Z.ltb_ge in Hz. apply Z.ltb_lt.
    assert (0 < 2 ^ Z.max 0 (- e)) by (apply Z.pow_pos_nonneg; lia). nia.
Qed.

(** A float above an integer is no NaN and not below that integer. *)
Lemma int_lt_float_asym (x : float) (z : Z) :
  int_lt_float z x = true → is_nan x = false ∧ float_lt_int x z = false.
Proof.
  unfold float_lt_int, int_lt_float. rewrite is_nan_spec.
  destruct (Prim2SF x) as [s|s| |s m e]; [| |done|].
  - simpl. intros Hz%Z.ltb_lt. split; [done|]. apply Z.ltb_ge. lia.
  - simpl. by destruct s.
  - intros Hz. split; [done|].
    rewrite (SFint_lt_scale z s m e (Z.max 0 (- e))) in Hz by lia.
    rewrite (SFlt_int_scale z s m e (Z.max 0 (- e))) by lia.
    apply Z.ltb_lt in Hz. apply Z.ltb_ge. lia.
Qed.


(** ** Sessions *)

Lemma active_session_lookup cookie scanning_sessions session_id scan_session :
  active_session cookie scanning_sessions = Some (session_id, scan_session) →
  cookie = Some session_id ∧ scanning_sessions !! session_id = Some scan_session.
Proof.
  unfold active_session. destruct cookie as [sid|]; [|done].
  destruct (decide (sid = "")); [done|].
  destruct (scanning_sessions !! sid) eqn:Hs; [|done].
  by intros [= <- <-].
Qed.

Lemma getitem_in_range {A : Type} (l : list A) (i : Z) :
  0 ≤ i < len l → ∃ x, l !! Z.to_nat i = Some x ∧ getitem l i = Ok x.
Proof.
  intros Hi. unfold getitem, len in *.
  destruct (Z.ltb_spec i 0); [lia|].
  destruct (Z.leb_spec 0 i); [|lia].
  destruct (Z.ltb_spec i (Z.of_nat (length l))); [|lia]. simpl.
  destruct (lookup_lt_is_Some_2 l (Z.to_nat i)) as [x Hx]; [lia|].
  exists x. by rewrite Hx.
Qed.

Lemma getitem_empty {A : Type} (i : Z) : getitem (@nil A) i = Raise IndexError.
Proof.
  unfold getitem, len. simpl.
  by destruct (_ && _).
Qed.

Lemma len_nonneg {A : Type} (l : list A) : 0 ≤ len l.
Proof. unfold len. lia. Qed.

Lemma len_zero {A : Type} (l : list A) : len l = 0 ↔ l = [].
Proof. unfold len. destruct l; simpl; split; (done || lia). Qed.

(** An index that is an [int] or a [bool]. *)
Lemma to_Z_Some (a : PyNum.t) (i : Z) :
  PyNum.to_Z a = Some i → PyNum.view a = inl i.
Proof. unfold PyNum.to_Z. destruct (PyNum.view a); naive_solver. Qed.

Lemma index_inv_int (a : PyNum.t) (i n : Z) :
  PyNum.to_Z a = Some i →
  index_inv a n ↔ if decide (n = 0) then -1 ≤ i ≤ 0 else 0 ≤ i ≤ n - 1.
Proof.
  intros Ha. unfold index_inv. destruct a as [j|b|x]; [| |done].
  - split; [|by exists i]. intros (i' & Hi' & Hb). by simplify_eq.
  - split; [|by exists i]. intros (i' & Hi' & Hb). by simplify_eq.
Qed.

(** [min(current_index + 1, len - 1)] keeps the invariant. *)
Lemma index_inv_next (a : PyNum.t) (n : Z) :
  0 ≤ n → index_inv a n →
  index_inv (PyNum.min (PyNum.add_int a 1) (PyNum.Int (n - 1))) n.
Proof.
  intros Hn Ha. unfold PyNum.min, PyNum.add_int.
  destruct (PyNum.view a) as [i|x] eqn:Hv.
  - assert (PyNum.to_Z a = Some i) as Hi by (unfold PyNum.to_Z; by rewrite Hv).
    apply (index_inv_int _ _ _ Hi) in Ha.
    change (PyNum.lt (PyNum.Int (n - 1)) (PyNum.Int (i + 1)))
      with (n - 1 <? i + 1).
    destruct (Z.ltb_spec (n - 1) (i + 1));
      (eapply index_inv_int; [done|]); repeat case_decide; lia.
  - destruct a as [?|?|y]; try done. injection Hv as ->.
    destruct Ha as (Hnan & Hlo & Hhi).
    destruct (float_index_bounds x (n - 1) Hnan Hlo Hhi) as [Hn1 _].
    destruct (float_succ_nonneg x Hnan Hlo) as [Hnan' Hlo'].
    destruct (PyNum.lt (PyNum.Int (n - 1))
                (PyNum.Float (x + PyFloat.of_int 1))) eqn:Hlt.
    + eapply index_inv_int; [done|]. case_decide; lia.
    + exact (conj Hnan' (conj Hlo' Hlt)).
Qed.

(** [max(current_index - 1, 0)] keeps the invariant. *)
Lemma index_inv_previous (a : PyNum.t) (n : Z) :
  0 ≤ n → index_inv a n →
  index_inv (PyNum.max (PyNum.sub_int a 1) (PyNum.Int 0)) n.
Proof.
  intros Hn Ha. unfold PyNum.max, PyNum.sub_int.
  destruct (PyNum.view a) as [i|x] eqn:Hv.
  - assert (PyNum.to_Z a = Some i) as Hi by (unfold PyNum.to_Z; by rewrite Hv).
    apply (index_inv_int _ _ _ Hi) in Ha.
    change (PyNum.lt (PyNum.Int (i - 1)) (PyNum.Int 0)) with (i - 1 <? 0).
    destruct (Z.ltb_spec (i - 1) 0);
      (eapply index_inv_int; [done|]); repeat case_decide; lia.
  - destruct a as [?|?|y]; try done. injection Hv as ->.
    destruct Ha as (Hnan & Hlo & Hhi).
    destruct (float_index_bounds x (n - 1) Hnan Hlo Hhi) as [Hn1 _].
    destruct (float_pred_le x (n - 1) Hnan Hlo Hhi Hn1) as [Hnan' Hhi'].
    destruct (PyNum.lt (PyNum.Float (x - PyFloat.of_int 1)) (PyNum.Int 0))
      eqn:Hlt.
    + eapply index_inv_int; [done|]. case_decide; lia.
    + exact (conj Hnan' (conj Hlt Hhi')).
Qed.

(** [max(0, min(index, len - 1))] makes the invariant, whatever number
    [index] is. *)
Lemma index_inv_jump (index : PyNum.t) (n : Z) :
  0 ≤ n →
  index_inv
    (PyNum.max (PyNum.Int 0) (PyNum.min index (PyNum.Int (n - 1)))) n.
Proof.
  intros Hn. unfold PyNum.max, PyNum.min.
  destruct index as [j|b|x].
  - change (PyNum.lt (PyNum.Int (n - 1)) (PyNum.Int j)) with (n - 1 <? j).
    destruct (Z.ltb_spec (n - 1) j).
    + change (PyNum.lt (PyNum.Int 0) (PyNum.Int (n - 1))) with (0 <? n - 1).
      destruct (Z.ltb_spec 0 (n - 1));
        (eapply index_inv_int; [done|]); case_decide; lia.
    + change (PyNum.lt (PyNum.Int 0) (PyNum.Int j)) with (0 <? j).
      destruct (Z.ltb_spec 0 j);
        (eapply index_inv_int; [done|]); case_decide; lia.
  - change (PyNum.lt (PyNum.Int (n - 1)) (PyNum.Bool b))
      with (n - 1 <? Z.b2z b).
    destruct (Z.ltb_spec (n - 1) (Z.b2z b)).
    + change (PyNum.lt (PyNum.Int 0) (PyNum.Int (n - 1))) with (0 <? n - 1).
      destruct (Z.ltb_spec 0 (n - 1));
        (eapply index_inv_int; [done|]); case_decide; lia.
    + change (PyNum.lt (PyNum.Int 0) (PyNum.Bool b)) with (0 <? Z.b2z b).
      destruct (Z.ltb_spec 0 (Z.b2z b));
        (eapply index_inv_int; [done|]); case_decide; lia.
  - destruct (PyNum.lt (PyNum.Int (n - 1)) (PyNum.Float x)) eqn:Hhi.
    + change (PyNum.lt (PyNum.Int 0) (PyNum.Int (n - 1))) with (0 <? n - 1).
      destruct (Z.ltb_spec 0 (n - 1));
        (eapply index_inv_int; [done|]); case_decide; lia.
    + destruct (PyNum.lt (PyNum.Int 0) (PyNum.Float x)) eqn:Hlo.
      * destruct (int_lt_float_asym x 0 Hlo) as [Hnan Hlo'].
        exact (conj Hnan (conj Hlo' Hhi)).
      * eapply index_inv_int; [done|]. case_decide; lia.
Qed.

(** On a grid that is not empty the index is on it: not below 0, not
    above [len - 1], and below [len], the test the handlers make. *)
Lemma index_inv_on_grid (a : PyNum.t) (n : Z) :
  0 < n → index_inv a n →
  PyNum.lt a (PyNum.Int 0) = false
  ∧ PyNum.lt (PyNum.Int (n - 1)) a = false
  ∧ PyNum.lt a (PyNum.Int n) = true.
Proof.
  intros Hn Ha. destruct (PyNum.view a) as [i|x] eqn:Hv.
  - assert (PyNum.to_Z a = Some i) as Hi by (unfold PyNum.to_Z; by rewrite Hv).
    apply (index_inv_int _ _ _ Hi) in Ha. case_decide; [lia|].
    unfold PyNum.lt. rewrite Hv. simpl.
    split; [|split]; (apply Z.ltb_ge || apply Z.ltb_lt); lia.
  - destruct a as [?|?|y]; try done. injection Hv as ->.
    destruct Ha as (Hnan & Hlo & Hhi). split; [done|]. split; [done|].
    destruct (float_index_bounds x (n - 1) Hnan Hlo Hhi) as [_ Hlt].
    by replace (n - 1 + 1) with n in Hlt by lia.
Qed.


Lemma min_Int (a b : Z) :
  PyNum.min (PyNum.Int a) (PyNum.Int b) = PyNum.Int (Z.min a b).
Proof.
  unfold PyNum.min.
  change (PyNum.lt (PyNum.Int b) (PyNum.Int a)) with (b <? a).
  destruct (Z.ltb_spec b a); f_equal; lia.
Qed.

Lemma max_Int (a b : Z) :
  PyNum.max (PyNum.Int a) (PyNum.Int b) = PyNum.Int (Z.max a b).
Proof.
  unfold PyNum.max.
  change (PyNum.lt (PyNum.Int a) (PyNum.Int b)) with (a <? b).
  destruct (Z.ltb_spec a b); f_equal; lia.
Qed.

Lemma add_int_to_Z (a : PyNum.t) (i k : Z) :
  PyNum.to_Z a = Some i → PyNum.add_int a k = PyNum.Int (i + k).
Proof. intros Hi%to_Z_Some. unfold PyNum.add_int. by rewrite Hi. Qed.

Lemma sub_int_to_Z (a : PyNum.t) (i k : Z) :
  PyNum.to_Z a = Some i → PyNum.sub_int a k = PyNum.Int (i - k).
Proof. intros Hi%to_Z_Some. unfold PyNum.sub_int. by rewrite Hi. Qed.


(** The branches of [apply_action] that move the index. *)
Lemma apply_action_next scan_session :
  apply_action (act "next") scan_session
  = Ok (ScanSession.set_current_index
          (PyNum.min (PyNum.add_int (ScanSession.current_index scan_session) 1)
             (PyNum.Int (len (ScanSession.grid_points scan_session) - 1)))
          scan_session).
Proof. reflexivity. Qed.

Lemma apply_action_previous scan_session :
  apply_action (act "previous") scan_session
  = Ok (ScanSession.set_current_index
          (PyNum.max (PyNum.sub_int (ScanSession.current_index scan_session) 1)
             (PyNum.Int 0))
          scan_session).
Proof. reflexivity. Qed.

Lemma apply_action_jump index scan_session :
  apply_action (jump index) scan_session
  = number ← PyNum.of_json index;
    Ok (ScanSession.set_current_index
          (PyNum.max (PyNum.Int 0)
             (PyNum.min number
                (PyNum.Int
                   (len (ScanSession.grid_points scan_session) - 1))))
          scan_session).
Proof. reflexivity. Qed.

Section session_facts.
Context `{Libm}.

(** What [control_scan] never writes. *)
Lemma apply_action_frame body scan_session scan_session' :
  apply_action body scan_session = Ok scan_session' →
  ScanSession.id scan_session' = ScanSession.id scan_session
  ∧ ScanSession.center_lat scan_session'
    = ScanSession.center_lat scan_session
  ∧ ScanSession.center_lon scan_session'
    = ScanSession.center_lon scan_session
  ∧ ScanSession.radius_miles scan_session'
    = ScanSession.radius_miles scan_session
  ∧ ScanSession.zoom_level scan_session'
    = ScanSession.zoom_level scan_session
  ∧ ScanSession.speed_seconds scan_session'
    = ScanSession.speed_seconds scan_session
  ∧ ScanSession.grid_points scan_session'
    = ScanSession.grid_points scan_session
  ∧ ScanSession.created_at scan_session'
    = ScanSession.created_at scan_session
  ∧ ScanSession.bookmarks scan_session'
    = ScanSession.bookmarks scan_session.
Proof.
  unfold apply_action. repeat case_decide; try by intros [= <-].
  by intros (index & _ & [= <-])%bind_eq_Ok.
Qed.

Lemma grid_points_apply_action body scan_session scan_session' :
  apply_action body scan_session = Ok scan_session' →
  ScanSession.grid_points scan_session'
  = ScanSession.grid_points scan_session.
Proof. by intros (_&_&_&_&_&_&?&_)%apply_action_frame. Qed.

Lemma apply_action_inv body scan_session scan_session' :
  session_inv scan_session →
  apply_action body scan_session = Ok scan_session' →
  session_inv scan_session'.
Proof.
  unfold session_inv. intros Hinv Ha.
  rewrite (grid_points_apply_action _ _ _ Ha).
  pose proof (len_nonneg (ScanSession.grid_points scan_session)) as Hn.
  revert Ha. unfold apply_action. repeat case_decide; try by intros [= <-].
  - intros [= <-]. by apply index_inv_next.
  - intros [= <-]. by apply index_inv_previous.
  - intros (index & _ & [= <-])%bind_eq_Ok. by apply index_inv_jump.
Qed.

Lemma handle_inv cookie r scanning_sessions :
  map_Forall (λ _, session_inv) scanning_sessions →
  map_Forall (λ _, session_inv) (handle cookie r scanning_sessions).2.
Proof.
  intros Hinv. destruct r; simpl.
  - unfold setup_scan. destruct (_ ≫= _) as [[d grid_points]|e]; [|done].
    apply map_Forall_insert_2; [|done].
    unfold session_inv. simpl. exists 0. split; [done|].
    pose proof (len_nonneg grid_points). case_decide; lia.
  - unfold get_current_location. by destruct (active_session _ _) as [[]|].
  - unfold control_scan.
    destruct (active_session _ _) as [[sid s]|] eqn:Hs; [|done].
    apply active_session_lookup in Hs as [_ Hs].
    destruct (apply_action body s) as [s'|e] eqn:Ha; [|done].
    apply map_Forall_insert_2; [|done].
    apply (apply_action_inv body s s'); [|done]. apply (Hinv _ _ Hs).
  - unfold add_bookmark.
    destruct (active_session _ _) as [[sid s]|] eqn:Hs; [|done].
    apply active_session_lookup in Hs as [_ Hs].
    destruct (PyNum.lt _ _); [|done]. destruct (PyNum.getitem _ _); [|done].
    apply map_Forall_insert_2; [|done]. apply (Hinv _ _ Hs).
  - unfold get_bookmarks. by destruct (active_session _ _) as [[]|].
  - unfold export_bookmarks. by destruct (active_session _ _) as [[]|].
Qed.

Lemma reachable_inv scanning_sessions :
  reachable scanning_sessions → map_Forall (λ _, session_inv) scanning_sessions.
Proof.
  induction 1 as [|scanning_sessions cookie r _ IH].
  - apply map_Forall_empty.
  - by apply handle_inv.
Qed.

End session_facts.

(** * The claims

    ** The grid generator *)

Section generator_claims.
Context `{Libm}.
Variables (center_lat center_lon radius_miles : float) (zoom_level : Z).
Import GridCalculator.
#[local] Open Scope float_scope.

Abbreviation calculate_scan_grid :=
  (calculate_scan_grid center_lat center_lon radius_miles zoom_level).
Abbreviation row_lat := (row_lat center_lat radius_miles zoom_level).
Abbreviation col_lon := (col_lon center_lon radius_miles zoom_level).

Lemma scan_made_at pts :
  calculate_scan_grid = Ok pts →
  ∃ g, grid_size radius_miles zoom_level = Ok g
    ∧ retained center_lat center_lon radius_miles zoom_level (traversal g) 0
      = Ok pts.
Proof. rewrite scan_retained. by intros (g & ? & ?)%bind_eq_Ok; exists g. Qed.

(** C1: every point of the returned sequence was made at a lattice cell whose
    haversine distance from the centre, as [_distance_miles] computes it with
    Earth radius 3959 miles, is at most [radius_miles]; and a cell whose
    distance fails the test [distance <= radius_miles] has no point in the
    sequence. The dictionary stores the distance rounded to 2 decimals and
    the coordinates rounded to 6. *)
Theorem retained_within_radius pts :
  calculate_scan_grid = Ok pts →
  (∀ p, p ∈ pts → ∃ distance,
     _distance_miles center_lat center_lon
       (row_lat (GridPoint.row p)) (col_lon (GridPoint.col p)) = Ok distance
     ∧ (distance <=? radius_miles) = true
     ∧ p = grid_point (GridPoint.id p) (row_lat (GridPoint.row p))
             (col_lon (GridPoint.col p)) (GridPoint.row p) (GridPoint.col p)
             distance zoom_level)
  ∧ (∀ row col distance,
       _distance_miles center_lat center_lon (row_lat row) (col_lon col)
       = Ok distance →
       (distance <=? radius_miles) = false →
       ∀ p, p ∈ pts → (GridPoint.row p, GridPoint.col p) ≠ (row, col)).
Proof.
  intros (g & _ & Hpts%retained_made_at)%scan_made_at.
  rewrite Forall_forall in Hpts.
  assert (∀ p, p ∈ pts → ∃ distance,
            made_at center_lat center_lon radius_miles zoom_level p distance)
    as Hmade by (intros p [_ Hp]%Hpts; exact Hp).
  split; [exact Hmade|].
  intros row col distance Hd Hfar p (d & Hd' & Hle & _)%Hmade [= Hrow Hcol].
  rewrite Hrow, Hcol, Hd in Hd'. injection Hd' as <-. congruence.
Qed.

(** C2: row [r]'s points are all made at latitude
    [center_lat - radius_deg + r * step]: their [lat] field is that value
    rounded to 6 decimals and their four links carry it as [repr] writes it
    (and so for the longitude of their column); the sequence goes through
    the rows in ascending order, and within a row through the columns in
    ascending order when the row is even and in descending order when it is
    odd. *)
Theorem serpentine_order pts :
  calculate_scan_grid = Ok pts →
  (∀ p, p ∈ pts →
     let lat :=
       center_lat - radius_deg radius_miles
       + PyFloat.of_int (GridPoint.row p) * step_size zoom_level in
     let lon :=
       center_lon - radius_deg radius_miles
       + PyFloat.of_int (GridPoint.col p) * step_size zoom_level in
     GridPoint.lat p = PyFloat.round lat 6
     ∧ GridPoint.lon p = PyFloat.round lon 6
     ∧ GridPoint.google_maps_url p
       = "https://maps.google.com/@" +:+ PyFloat.repr lat +:+ ","
         +:+ PyFloat.repr lon +:+ "," +:+ pretty zoom_level +:+ "z"
     ∧ GridPoint.google_embed_url p
       = "https://www.google.com/maps/embed?pb=!1m14!1m12!1m3!1d3000!2d"
         +:+ PyFloat.repr lon +:+ "!3d" +:+ PyFloat.repr lat
         +:+ "!2m3!1f0!2f0!3f0!3m2!1i1024!2i768!4f13.1!5e0!3m2!1sen!2sus!4v1"
     ∧ GridPoint.openstreetmap_url p
       = "https://www.openstreetmap.org/?mlat=" +:+ PyFloat.repr lat
         +:+ "&mlon=" +:+ PyFloat.repr lon +:+ "&zoom="
         +:+ pretty zoom_level
     ∧ GridPoint.bing_maps_url p
       = "https://www.bing.com/maps?cp=" +:+ PyFloat.repr lat +:+ "~"
         +:+ PyFloat.repr lon +:+ "&lvl=" +:+ pretty zoom_level
     ∧ ∃ distance,
         p = grid_point (GridPoint.id p) lat lon (GridPoint.row p)
               (GridPoint.col p) distance zoom_level)
  ∧ (∀ i j p q, pts !! i = Some p → pts !! j = Some q → (i < j)%nat →
       (GridPoint.row p < GridPoint.row q
        ∨ (GridPoint.row p = GridPoint.row q
           ∧ if GridPoint.row p mod 2 =? 0
             then GridPoint.col p < GridPoint.col q
             else GridPoint.col q < GridPoint.col p))%Z).
Proof.
  intros (g & _ & Hpts)%scan_made_at. split.
  - apply retained_made_at in Hpts. rewrite Forall_forall in Hpts.
    intros p [_ (distance & _ & _ & Hp)]%Hpts lat lon.
    split; [exact (f_equal GridPoint.lat Hp)|].
    split; [exact (f_equal GridPoint.lon Hp)|].
    split; [exact (f_equal GridPoint.google_maps_url Hp)|].
    split; [exact (f_equal GridPoint.google_embed_url Hp)|].
    split; [exact (f_equal GridPoint.openstreetmap_url Hp)|].
    split; [exact (f_equal GridPoint.bing_maps_url Hp)|].
    by exists distance.
  - apply retained_sublist in Hpts.
    pose proof (StronglySorted_sublist _ _ _ Hpts (traversal_sorted g)) as Hs.
    intros i j p q Hi Hj Hij.
    apply (StronglySorted_lookup _ _ i j (cell p) (cell q) Hs);
      [by rewrite list_lookup_fmap, Hi|by rewrite list_lookup_fmap, Hj|done].
Qed.

(** C3: the ids of the returned sequence are 0, 1, 2, ... in sequence order:
    the point at position [i] has id [i]. *)
Theorem ids_count_from_zero pts :
  calculate_scan_grid = Ok pts →
  GridPoint.id <$> pts = seqZ 0 (len pts)
  ∧ ∀ i p, pts !! i = Some p → GridPoint.id p = Z.of_nat i.
Proof.
  intros (g & _ & Hids%retained_ids)%scan_made_at. split; [done|].
  intros i p Hp.
  assert ((GridPoint.id <$> pts) !! i = Some (GridPoint.id p)) as Hi
    by (by rewrite list_lookup_fmap, Hp).
  rewrite Hids in Hi. apply lookup_seqZ in Hi. lia.
Qed.

(** X1: the returned points sit on the lattice, and every cell of the
    lattice whose distance passes the test has its point in the sequence. *)
Theorem lattice_cells_retained g pts :
  grid_size radius_miles zoom_level = Ok g →
  calculate_scan_grid = Ok pts →
  (∀ p, p ∈ pts →
     (0 ≤ GridPoint.row p < g ∧ 0 ≤ GridPoint.col p < g)%Z)
  ∧ (∀ row col, (0 ≤ row < g)%Z → (0 ≤ col < g)%Z →
       ∃ distance,
         _distance_miles center_lat center_lon (row_lat row) (col_lon col)
         = Ok distance
         ∧ ((distance <=? radius_miles) = true →
            ∃ p, p ∈ pts ∧ GridPoint.row p = row ∧ GridPoint.col p = col)).
Proof.
  intros Hg (g' & Hg' & Hpts)%scan_made_at.
  rewrite Hg in Hg'. injection Hg' as <-. split.
  - apply retained_made_at in Hpts. rewrite Forall_forall in Hpts.
    intros p [Hcell _]%Hpts. by apply elem_of_traversal in Hcell.
  - intros row col Hrow Hcol.
    destruct (retained_complete _ _ _ _ _ _ _ row col Hpts) as (d & Hd & Hin);
      [by apply elem_of_traversal|].
    exists d. split; [done|]. intros Hle.
    destruct (Hin Hle) as (p & Hp & [= ? ?]). by exists p.
Qed.

End generator_claims.

Section degenerate.
Context `{LibmSign}.
Variables (center_lat center_lon radius_miles : float) (zoom_level : Z).
Import GridCalculator.
#[local] Open Scope float_scope.

Lemma retained_negative_radius cells point_id pts :
  (radius_miles <? 0) = true →
  retained center_lat center_lon radius_miles zoom_level cells point_id = Ok pts →
  pts = [].
Proof.
  intros Hneg. revert point_id pts.
  induction cells as [|[row col] cells IH]; intros point_id pts Hpts.
  { by injection Hpts as <-. }
  apply retained_cons_inv in Hpts as (distance & Hd & Hpts).
  apply distance_nonneg in Hd.
  rewrite (leb_nonneg_negative _ _ Hd Hneg) in Hpts. by eapply IH.
Qed.

(** C4, amended: an input whose derived [grid_size] is at most 0 gives the
    empty sequence, and for an input with [radius_miles < 0] every sequence
    the generator returns is empty (the haversine distance is never
    negative). [radius_miles = 0] is left out: there the sequence holds the
    point at the centre. *)
Theorem degenerate_grid_empty g :
  grid_size radius_miles zoom_level = Ok g →
  ((g ≤ 0)%Z →
   calculate_scan_grid center_lat center_lon radius_miles zoom_level = Ok [])
  ∧ ((radius_miles <? 0) = true →
     ∀ pts,
       calculate_scan_grid center_lat center_lon radius_miles zoom_level
       = Ok pts →
       pts = []).
Proof.
  intros Hg. rewrite scan_retained, Hg, bind_Ok. split.
  - intros Hle. unfold traversal. by rewrite range_seqZ, seqZ_nil.
  - intros Hneg pts. by apply retained_negative_radius.
Qed.
End degenerate.

(** ** The session store *)

(** C5 fails on the code: on a session whose grid is empty the action [next]
    sets [current_index] to [min(0 + 1, 0 - 1) = -1], below the invariant's
    bound 0 (and [get_current_location] then raises at [grid_points[-1]]). *)
Theorem next_on_empty_grid :
  let scanning_sessions :=
    (handle (H := Reference.libm) (Some "s") (ControlScan (act "next") "t2")
       empty_grid_store).2 in
  reachable (H := Reference.libm) scanning_sessions
  ∧ ScanSession.grid_points <$> scanning_sessions !! "s" = Some []
  ∧ ScanSession.current_index <$> scanning_sessions !! "s"
    = Some (PyNum.Int (-1))
  ∧ (get_current_location (Some "s") scanning_sessions).1 = Raise IndexError.
Proof.
  split; [|split; [|split]; vm_compute; reflexivity].
  do 2 apply reachable_request. apply reachable_start.
Qed.

(** C8 fails on the code: on a session whose grid is empty, [export_bookmarks]
    divides by [len(grid_points) = 0] and raises, where
    [get_current_location] guards the same division and answers. *)
Theorem export_on_empty_grid :
  reachable (H := Reference.libm) empty_grid_store
  ∧ ScanSession.grid_points <$> empty_grid_store !! "s" = Some []
  ∧ (export_bookmarks (Some "s") empty_grid_store).1 = Raise ZeroDivisionError
  ∧ (get_current_location (Some "s") empty_grid_store).1 = Ok JsonCompleted.
Proof.
  split; [|split; [|split]; vm_compute; reflexivity].
  apply reachable_request, reachable_start.
Qed.

(** C9 fails on the code: a jump whose index is [null], which the page sends
    when the number typed does not parse, raises [TypeError] at
    [min(index, ...)]: the call is not answered and [last_activity] keeps
    its value, where every other control call sets it. *)
Theorem jump_null_index_raises :
  reachable (H := Reference.libm) example_store
  ∧ ScanSession.last_activity <$> example_store !! "s" = Some "t1"
  ∧ control_scan (Some "s") (jump JNull) "t2" example_store
    = (Raise TypeError, example_store)
  ∧ ScanSession.last_activity
      <$> (control_scan (Some "s") (act "dance") "t2" example_store).2 !! "s"
    = Some "t2".
Proof.
  split; [|split; [|split]; vm_compute; reflexivity].
  apply reachable_request, reachable_start.
Qed.

Lemma truediv_nonzero (a : PyNum.t) (n : Z) :
  n ≠ 0 → ∃ q, PyNum.truediv a n = Ok q.
Proof.
  intros Hn. unfold PyNum.truediv, PyFloat.truediv.
  destruct (Z.eqb_spec n 0); [done|].
  destruct (PyNum.view a) as [[]|]; by eexists.
Qed.

(** X2: on a session whose grid is not empty, [export_bookmarks] answers with
    the snapshot (the scan parameters, all bookmarks, and
    [current_index / len(grid_points) * 100] as completion percentage) and
    leaves the store as it is. *)
Theorem export_bookmarks_snapshot cookie scanning_sessions session_id scan_session :
  active_session cookie scanning_sessions = Some (session_id, scan_session) →
  ScanSession.grid_points scan_session ≠ [] →
  ∃ q export_data,
    PyNum.truediv (ScanSession.current_index scan_session)
      (len (ScanSession.grid_points scan_session)) = Ok q
    ∧ export_bookmarks cookie scanning_sessions
      = (Ok (JsonExport export_data), scanning_sessions)
    ∧ ExportData.completion_percentage export_data = (q * 100)%float
    ∧ ExportData.bookmarks export_data = ScanSession.bookmarks scan_session
    ∧ ExportData.center_lat export_data = ScanSession.center_lat scan_session
    ∧ ExportData.center_lon export_data = ScanSession.center_lon scan_session
    ∧ ExportData.radius_miles export_data
      = ScanSession.radius_miles scan_session
    ∧ ExportData.zoom_level export_data = ScanSession.zoom_level scan_session.
Proof.
  intros Hs Hgrid. unfold export_bookmarks. rewrite Hs.
  destruct (truediv_nonzero (ScanSession.current_index scan_session)
              (len (ScanSession.grid_points scan_session))) as [q Hq].
  { by rewrite len_zero. }
  rewrite Hq, bind_Ok. by eexists _, _.
Qed.

(** C6: [next] sets [current_index] to [min(current_index + 1, len - 1)], never
    past [len - 1]; [previous] to [max(current_index - 1, 0)], never below 0;
    [jump] to its index clamped to [[0, len - 1]], so that jumping to 9999 on
    a 500-point grid gives 499. The first three lines hold of every number
    the index can be, the rest spell them out for integers. *)
Theorem control_moves_clamped cookie scanning_sessions session_id scan_session
    now index :
  active_session cookie scanning_sessions = Some (session_id, scan_session) →
  let n := len (ScanSession.grid_points scan_session) in
  let current_index := ScanSession.current_index scan_session in
  let after body :=
    ScanSession.current_index
      <$> (control_scan cookie body now scanning_sessions).2 !! session_id in
  let moved_on :=
    PyNum.min (PyNum.add_int current_index 1) (PyNum.Int (n - 1)) in
  let moved_back :=
    PyNum.max (PyNum.sub_int current_index 1) (PyNum.Int 0) in
  (after (act "next") = Some moved_on
   ∧ PyNum.lt (PyNum.Int (n - 1)) moved_on = false)
  ∧ (after (act "previous") = Some moved_back
     ∧ PyNum.lt moved_back (PyNum.Int 0) = false)
  ∧ (∀ v number, PyNum.of_json v = Ok number →
       after (jump v)
       = Some (PyNum.max (PyNum.Int 0)
                 (PyNum.min number (PyNum.Int (n - 1)))))
  ∧ (∀ i, current_index = PyNum.Int i →
       (after (act "next") = Some (PyNum.Int (Z.min (i + 1) (n - 1)))
        ∧ Z.min (i + 1) (n - 1) ≤ n - 1)
       ∧ (after (act "previous") = Some (PyNum.Int (Z.max (i - 1) 0))
          ∧ 0 ≤ Z.max (i - 1) 0))
  ∧ (after (jump (JInt index))
     = Some (PyNum.Int (Z.max 0 (Z.min index (n - 1))))
     ∧ (1 ≤ n → Z.max 0 (Z.min index (n - 1)) = clamp 0 (n - 1) index))
  ∧ (n = 500 → after (jump (JInt 9999)) = Some (PyNum.Int 499)).
Proof.
  intros Hs n current_index after moved_on moved_back.
  assert (∀ a b, PyNum.min (PyNum.Int a) (PyNum.Int b)
                 = PyNum.Int (Z.min a b)) as Hmin.
  { intros a b. unfold PyNum.min.
    change (PyNum.lt (PyNum.Int b) (PyNum.Int a)) with (b <? a).
    destruct (Z.ltb_spec b a); f_equal; lia. }
  assert (∀ a b, PyNum.max (PyNum.Int a) (PyNum.Int b)
                 = PyNum.Int (Z.max a b)) as Hmax.
  { intros a b. unfold PyNum.max.
    change (PyNum.lt (PyNum.Int a) (PyNum.Int b)) with (a <? b).
    destruct (Z.ltb_spec a b); f_equal; lia. }
  assert (after (act "next") = Some moved_on) as Hnext.
  { subst after. unfold control_scan. rewrite Hs, apply_action_next.
    cbn [snd]. by rewrite lookup_insert_eq. }
  assert (after (act "previous") = Some moved_back) as Hprev.
  { subst after. unfold control_scan. rewrite Hs, apply_action_previous.
    cbn [snd]. by rewrite lookup_insert_eq. }
  assert (∀ v number, PyNum.of_json v = Ok number →
            after (jump v)
            = Some (PyNum.max (PyNum.Int 0)
                      (PyNum.min number (PyNum.Int (n - 1))))) as Hjump.
  { intros v number Hv. subst after. unfold control_scan.
    rewrite Hs, apply_action_jump, Hv, bind_Ok.
    cbn [snd]. by rewrite lookup_insert_eq. }
  split; [|split; [|split; [|split; [|split]]]].
  - split; [done|]. subst moved_on. unfold PyNum.min.
    destruct (PyNum.lt (PyNum.Int (n - 1)) (PyNum.add_int current_index 1))
      eqn:Hlt; [|done].
    change ((n - 1 <? n - 1) = false). apply Z.ltb_irrefl.
  - split; [done|]. subst moved_back. unfold PyNum.max.
    destruct (PyNum.lt (PyNum.sub_int current_index 1) (PyNum.Int 0))
      eqn:Hlt; [|done].
    done.
  - done.
  - intros i Hi. rewrite Hnext, Hprev. subst moved_on moved_back.
    rewrite Hi. cbn. rewrite Hmin, Hmax. repeat split; lia.
  - rewrite (Hjump (JInt index) (PyNum.Int index)) by done.
    rewrite Hmin, Hmax. split; [done|]. unfold clamp. intros Hn.
    destruct (Z.ltb_spec index 0), (Z.ltb_spec (n - 1) index); lia.
  - intros Hn. rewrite (Hjump (JInt 9999) (PyNum.Int 9999)) by done.
    rewrite Hmin, Hmax, Hn. done.
Qed.

Section bookmark_claims.
Context `{Libm}.

Lemma reachable_session_inv cookie scanning_sessions session_id scan_session :
  reachable scanning_sessions →
  active_session cookie scanning_sessions = Some (session_id, scan_session) →
  session_inv scan_session.
Proof.
  intros Hr [_ Hs]%active_session_lookup.
  exact (reachable_inv _ Hr _ _ Hs).
Qed.


(** C10: a session whose grid is not empty keeps [current_index] between 0
    and [len(grid_points) - 1], and so below [len(grid_points)], in every
    store the requests can reach, whatever indices the jumps were given:
    [get_current_location] never answers "completed" for it and
    [add_bookmark] never answers that the location is invalid. With an
    index that is an integer the two find the point; an index that is a
    float, which a jump to a float leaves, makes both raise [TypeError]. *)
Theorem index_stays_on_grid cookie scanning_sessions session_id scan_session :
  reachable scanning_sessions →
  active_session cookie scanning_sessions = Some (session_id, scan_session) →
  ScanSession.grid_points scan_session ≠ [] →
  let current_index := ScanSession.current_index scan_session in
  let grid_points := ScanSession.grid_points scan_session in
  (PyNum.lt current_index (PyNum.Int 0) = false
   ∧ PyNum.lt (PyNum.Int (len grid_points - 1)) current_index = false
   ∧ PyNum.lt current_index (PyNum.Int (len grid_points)) = true)
  ∧ (get_current_location cookie scanning_sessions).1 ≠ Ok JsonCompleted
  ∧ (∀ note bookmark_id now1 now2,
       (add_bookmark cookie note bookmark_id now1 now2 scanning_sessions).1
       ≠ Ok (JsonError "Invalid location for bookmarking"))
  ∧ (∀ i, PyNum.to_Z current_index = Some i →
       0 ≤ i ≤ len grid_points - 1
       ∧ (∃ current_point progress_percent,
            (get_current_location cookie scanning_sessions).1
            = Ok (JsonLocation current_point current_index
                    (len grid_points) progress_percent
                    (ScanSession.is_running scan_session)
                    (ScanSession.is_paused scan_session)))
       ∧ (∀ note bookmark_id now1 now2, ∃ bookmark,
            (add_bookmark cookie note bookmark_id now1 now2
               scanning_sessions).1
            = Ok (JsonBookmark bookmark)))
  ∧ (∀ x, current_index = PyNum.Float x →
       (get_current_location cookie scanning_sessions).1 = Raise TypeError
       ∧ ∀ note bookmark_id now1 now2,
           (add_bookmark cookie note bookmark_id now1 now2
              scanning_sessions).1
           = Raise TypeError).
Proof.
  intros Hr Hs Hgrid current_index grid_points.
  pose proof (reachable_session_inv _ _ _ _ Hr Hs) as Hinv.
  unfold session_inv in Hinv. fold current_index grid_points in Hinv.
  assert (0 < len grid_points) as Hlen.
  { pose proof (len_nonneg grid_points).
    destruct (decide (len grid_points = 0)) as [Hn%len_zero|]; [done|lia]. }
  destruct (index_inv_on_grid _ _ Hlen Hinv) as (Hlo & Hhi & Hlt).
  assert (∀ i, PyNum.to_Z current_index = Some i →
            0 ≤ i ≤ len grid_points - 1
            ∧ ∃ current_point,
                PyNum.getitem grid_points current_index = Ok current_point)
    as Hint.
  { intros i Hi. apply (index_inv_int _ _ _ Hi) in Hinv.
    case_decide; [lia|]. split; [done|].
    destruct (getitem_in_range grid_points i) as (p & _ & Hp); [lia|].
    exists p. unfold PyNum.getitem. by rewrite (to_Z_Some _ _ Hi). }
  assert (∀ x, current_index = PyNum.Float x →
            PyNum.getitem grid_points current_index
            = @Raise GridPoint.t TypeError) as Hfloat.
  { by intros x ->. }
  destruct (truediv_nonzero current_index (len grid_points)) as [q Hq];
    [lia|].
  split; [done|].
  unfold get_current_location, add_bookmark. rewrite Hs.
  fold current_index grid_points. rewrite Hlt.
  split; [|split; [|split]].
  - destruct (PyNum.to_Z current_index) as [i|] eqn:Hi.
    + destruct (Hint i eq_refl) as (_ & p & ->). by rewrite bind_Ok, Hq.
    + by destruct current_index as [?|?|x] eqn:Hci.
  - intros note bookmark_id now1 now2.
    by destruct (PyNum.getitem grid_points current_index).
  - intros i Hi. destruct (Hint i Hi) as (Hin & p & Hp). split; [done|].
    rewrite Hp. split.
    + rewrite bind_Ok, Hq. by eexists _, _.
    + intros note bookmark_id now1 now2. by eexists.
  - intros x Hx. by rewrite (Hfloat x Hx).
Qed.
End bookmark_claims.

(** ** The claims on concrete inputs *)

Lemma example_grid_value :
  ∃ pts, example_grid = Ok pts
    ∧ GridCalculator.cell <$> pts
      = [(1, 3); (1, 2); (1, 1); (2, 1); (2, 2); (2, 3); (3, 3); (3, 2);
         (3, 1)].
Proof. eexists. split; vm_compute; reflexivity. Defined.

(** C1 on [example_grid]: its 9 points are within 2 miles of the centre. *)
Lemma retained_within_radius_example :
  ∃ pts, example_grid = Ok pts ∧ length pts = 9%nat
    ∧ ∀ p, p ∈ pts → ∃ distance,
        GridCalculator._distance_miles (H := Reference.libm) 0 0
          (GridCalculator.row_lat 0 2 15 (GridPoint.row p))
          (GridCalculator.col_lon 0 2 15 (GridPoint.col p)) = Ok distance
        ∧ (distance <=? 2)%float = true.
Proof.
  destruct example_grid_value as (pts & Hpts & Hcells).
  exists pts. split; [exact Hpts|]. split.
  { apply (f_equal length) in Hcells. by rewrite length_fmap in Hcells. }
  intros p Hp.
  destruct (proj1 (retained_within_radius 0 0 2 15 pts Hpts) p Hp)
    as (distance & Hd & Hle & _).
  exists distance. exact (conj Hd Hle).
Defined.

(** C2 on [example_grid]: row 1 right to left, row 2 left to right, row 3
    right to left, at the latitudes -0.012986, 0.003014 and 0.019014 (the
    links of the first point carry -0.012985507246376812). *)
Lemma serpentine_order_example :
  ∃ pts, example_grid = Ok pts
    ∧ GridCalculator.cell <$> pts
      = [(1, 3); (1, 2); (1, 1); (2, 1); (2, 2); (2, 3); (3, 3); (3, 2);
         (3, 1)]
    ∧ GridPoint.lat <$> pts
      = [-0.012986; -0.012986; -0.012986; 0.003014; 0.003014; 0.003014;
         0.019014; 0.019014; 0.019014]%float
    ∧ GridPoint.google_maps_url <$> head pts
      = Some "https://maps.google.com/@-0.012985507246376812,0.01901449275362319,15z"
    ∧ (∀ p, p ∈ pts →
         GridPoint.lat p
         = PyFloat.round
             (0 - GridCalculator.radius_deg 2
              + PyFloat.of_int (GridPoint.row p)
                * GridCalculator.step_size 15) 6)
    ∧ ∀ i j p q, pts !! i = Some p → pts !! j = Some q → (i < j)%nat →
        GridCalculator.walk_before (GridCalculator.cell p)
          (GridCalculator.cell q).
Proof.
  assert (∃ pts, example_grid = Ok pts
            ∧ GridCalculator.cell <$> pts
              = [(1, 3); (1, 2); (1, 1); (2, 1); (2, 2); (2, 3); (3, 3);
                 (3, 2); (3, 1)]
            ∧ GridPoint.lat <$> pts
              = [-0.012986; -0.012986; -0.012986; 0.003014; 0.003014;
                 0.003014; 0.019014; 0.019014; 0.019014]%float
            ∧ GridPoint.google_maps_url <$> head pts
              = Some "https://maps.google.com/@-0.012985507246376812,0.01901449275362319,15z")
    as (pts & Hpts & Hcells & Hlats & Hurl).
  { eexists. split; [|split; [|split]]; vm_compute; reflexivity. }
  exists pts. split; [exact Hpts|]. split; [exact Hcells|].
  split; [exact Hlats|]. split; [exact Hurl|].
  destruct (serpentine_order 0 0 2 15 pts Hpts) as [Hfields Horder].
  split; [|exact Horder].
  intros p Hp. exact (proj1 (Hfields p Hp)).
Defined.

(** C3 on [example_grid]: ids 0 to 8. *)
Lemma ids_count_from_zero_example :
  ∃ pts, example_grid = Ok pts
    ∧ GridPoint.id <$> pts = [0; 1; 2; 3; 4; 5; 6; 7; 8].
Proof.
  destruct example_grid_value as (pts & Hpts & Hcells).
  exists pts. split; [exact Hpts|].
  rewrite (proj1 (ids_count_from_zero 0 0 2 15 pts Hpts)).
  apply (f_equal length) in Hcells. rewrite length_fmap in Hcells.
  unfold len. by rewrite Hcells.
Defined.

(** C4 as stated fails: with [radius_miles = 0] the lattice is the single
    cell [(0, 0)] at the centre, whose distance 0 passes [0 <= 0], and the
    sequence holds that one point. ([sin 0 = 0] and [atan2 0 1 = 0] in every
    C library.) *)
Lemma zero_radius_keeps_centre :
  (0 <=? 0)%float = true
  ∧ GridCalculator.grid_size 0 18 = Ok 1
  ∧ GridCalculator.calculate_scan_grid (H := Reference.libm)
      35.4922086 (-94.2260868) 0 18
    = Ok [GridCalculator.grid_point 0 35.4922086 (-94.2260868) 0 0 0 18].
Proof. split; [|split]; vm_compute; reflexivity. Qed.

(** C4, amended, on two inputs: radius -1 gives [grid_size = -13] and no
    walk; radius -0.0001 gives [grid_size = 1] and a cell that fails the
    test. *)
Lemma degenerate_grid_empty_example :
  (GridCalculator.grid_size (-1) 18 = Ok (-13)
   ∧ GridCalculator.calculate_scan_grid (H := Reference.libm) 0 0 (-1) 18
     = Ok [])
  ∧ (GridCalculator.grid_size (-0.0001) 18 = Ok 1
     ∧ ∀ pts,
         GridCalculator.calculate_scan_grid (H := Reference.libm)
           0 0 (-0.0001) 18 = Ok pts →
         pts = []).
Proof.
  split; (split; [vm_compute; reflexivity|]).
  - apply (degenerate_grid_empty (H0 := reference_atan2_negative)
             0 0 (-1) 18 (-13)); [vm_compute; reflexivity|lia].
  - apply (degenerate_grid_empty (H0 := reference_atan2_negative)
             0 0 (-0.0001) 18 1); vm_compute; reflexivity.
Defined.

(** X1 on [example_grid], a lattice of 4 x 4 cells. *)
Lemma lattice_cells_retained_example :
  ∃ pts, example_grid = Ok pts
    ∧ ∀ p, p ∈ pts → 0 ≤ GridPoint.row p < 4 ∧ 0 ≤ GridPoint.col p < 4.
Proof.
  destruct example_grid_value as (pts & Hpts & _).
  exists pts. split; [exact Hpts|].
  refine (proj1 (lattice_cells_retained 0 0 2 15 4 pts _ Hpts)).
  vm_compute; reflexivity.
Defined.

(** The spec's example, radius 6 miles at zoom 18: a viewport of 0.0025
    degrees, steps of 0.002, and [int(2 * (6 / 69.0) / 0.002) + 1 = 87] rows
    and columns. *)
Example grid_size_example :
  GridCalculator.view_size 18 = 0.0025%float
  ∧ GridCalculator.step_size 18 = 0.002%float
  ∧ GridCalculator.grid_size 6 18 = Ok 87.
Proof. split; [|split]; vm_compute; reflexivity. Qed.

(** The dictionary stores rounded values. Around (10, 0) with radius
    0.138 at zoom 18 the cells east and west of the centre are at distance
    0.1361, within the radius, and their [distance_from_center] reads 0.14. *)
Example stored_distance_rounded :
  (λ pts : list GridPoint.t, GridPoint.distance_from_center <$> pts)
    <$> GridCalculator.calculate_scan_grid (H := Reference.libm)
          10 0 0.138 18
  = Ok [0.14; 0; 0.14]%float.
Proof. vm_compute; reflexivity. Qed.

Lemma example_session :
  ∃ scan_session,
    active_session (Some "s") example_store = Some ("s", scan_session)
    ∧ len (ScanSession.grid_points scan_session) = 9
    ∧ ScanSession.current_index scan_session = PyNum.Int 0.
Proof. eexists. split; [|split]; vm_compute; reflexivity. Defined.

Lemma example_store_reachable : reachable (H := Reference.libm) example_store.
Proof. apply reachable_request, reachable_start. Defined.



Lemma moved_session :
  ∃ scan_session,
    active_session (Some "s") moved_store = Some ("s", scan_session)
    ∧ len (ScanSession.grid_points scan_session) = 9
    ∧ ScanSession.current_index scan_session = PyNum.Int 7
    ∧ ScanSession.is_running scan_session = false
    ∧ ScanSession.is_paused scan_session = false.
Proof.
  eexists. split; [|split; [|split; [|split]]]; vm_compute; reflexivity.
Defined.

Lemma moved_store_reachable : reachable (H := Reference.libm) moved_store.
Proof. do 4 apply reachable_request. apply example_store_reachable. Defined.

Lemma jumped_store_reachable : reachable (H := Reference.libm) jumped_store.
Proof. apply reachable_request, example_store_reachable. Defined.

#[local] Opaque example_store empty_grid_store moved_store jumped_store.

(** C6 on [example_store], 9 points at index 0: [next] gives 1, [previous]
    0, a jump to 9999 gives 8. *)
Lemma control_moves_clamped_example :
  let after body :=
    ScanSession.current_index
      <$> (control_scan (Some "s") body "t2" example_store).2 !! "s" in
  after (act "next") = Some (PyNum.Int 1)
  ∧ after (act "previous") = Some (PyNum.Int 0)
  ∧ after (jump (JInt 9999)) = Some (PyNum.Int 8).
Proof.
  destruct example_session as (scan_session & Hs & Hn & Hi).
  pose proof (control_moves_clamped _ _ _ _ "t2" 9999 Hs) as Hc.
  cbv zeta in Hc. rewrite Hn in Hc.
  destruct Hc as (_ & _ & _ & Hint & [Hjump _] & _).
  destruct (Hint 0 Hi) as [[Hnext _] [Hprev _]].
  exact (conj Hnext (conj Hprev Hjump)).
Defined.



(** X2 on [example_store]: nothing scanned yet, 0 percent. *)
Lemma export_bookmarks_snapshot_example :
  ∃ export_data,
    export_bookmarks (Some "s") example_store
    = (Ok (JsonExport export_data), example_store)
    ∧ ExportData.completion_percentage export_data = 0%float.
Proof.
  destruct example_session as (scan_session & Hs & Hn & Hi).
  assert (ScanSession.grid_points scan_session ≠ []) as Hgrid.
  { intros Hnil. by rewrite Hnil in Hn. }
  destruct (export_bookmarks_snapshot _ _ _ _ Hs Hgrid)
    as (q & export_data & Hq & Hout & Hpct & _).
  exists export_data. split; [exact Hout|].
  rewrite Hpct. rewrite Hn, Hi in Hq. by injection Hq as <-.
Defined.

(** C10 on [moved_store], [example_store] after next, jump to 9999, next
    and previous: the index is 7 of 9 and the point is found. *)
Lemma index_stays_on_grid_example :
  ∃ current_point progress_percent,
    (get_current_location (Some "s") moved_store).1
    = Ok (JsonLocation current_point (PyNum.Int 7) 9 progress_percent
            false false).
Proof.
  destruct moved_session as (scan_session & Hs & Hn & Hi & Hrun & Hpause).
  assert (ScanSession.grid_points scan_session ≠ []) as Hgrid.
  { intros Hnil. by rewrite Hnil in Hn. }
  destruct (index_stays_on_grid _ _ _ _ moved_store_reachable Hs Hgrid)
    as (_ & _ & _ & Hint & _).
  destruct (Hint 7) as (_ & (current_point & progress_percent & Hloc) & _).
  { by rewrite Hi. }
  exists current_point, progress_percent.
  rewrite Hloc, Hn, Hi, Hrun, Hpause. reflexivity.
Defined.

(** * Further properties

    ** The grid generator *)

Lemma walk_before_irrefl a : ¬ GridCalculator.walk_before a a.
Proof.
  unfold GridCalculator.walk_before. intros [?|[_ Hc]]; [lia|].
  destruct (_ =? _); lia.
Qed.

Lemma StronglySorted_NoDup {A : Type} (R : relation A) (l : list A) :
  (∀ x, ¬ R x x) → StronglySorted R l → NoDup l.
Proof.
  intros Hirr. induction 1 as [|x l _ IH Hx]; constructor; [|done].
  intros Hin. rewrite Forall_forall in Hx. by apply (Hirr x), Hx.
Qed.

Lemma length_traversal g : 0 ≤ g → len (GridCalculator.traversal g) = g * g.
Proof.
  intros Hg. unfold GridCalculator.traversal, len. rewrite range_seqZ.
  assert (∀ rows : list Z,
            length (rows ≫= λ row,
                      pair row <$> GridCalculator.cols g row)
            = (length rows * Z.to_nat g)%nat) as Hlen.
  { induction rows as [|row rows IH]; [done|].
    rewrite bind_cons, length_app, length_fmap, IH. simpl. f_equal.
    unfold GridCalculator.cols. destruct (_ =? _).
    - by rewrite range_seqZ, length_seqZ.
    - by rewrite range_down_seqZ, length_fmap, length_seqZ. }
  rewrite Hlen, length_seqZ. lia.
Qed.

Section more_generator.
Context `{Libm}.
Variables (center_lat center_lon radius_miles : float) (zoom_level : Z).
Import GridCalculator.
#[local] Open Scope float_scope.

(** X3: no cell of the lattice has two points in the returned sequence. *)
Theorem grid_cells_distinct pts :
  calculate_scan_grid center_lat center_lon radius_miles zoom_level = Ok pts →
  NoDup (cell <$> pts).
Proof.
  intros (g & _ & Hpts%retained_sublist)%scan_made_at.
  eapply StronglySorted_NoDup; [apply walk_before_irrefl|].
  eapply StronglySorted_sublist; [exact Hpts|apply traversal_sorted].
Qed.

(** X4: the sequence has at most [grid_size * grid_size] points, and none
    when [grid_size] is not positive. *)
Theorem grid_length_bound g pts :
  grid_size radius_miles zoom_level = Ok g →
  calculate_scan_grid center_lat center_lon radius_miles zoom_level = Ok pts →
  (0 ≤ len pts ≤ Z.max 0 g * Z.max 0 g)%Z.
Proof.
  intros Hg (g' & Hg' & Hpts%retained_sublist)%scan_made_at.
  rewrite Hg in Hg'. injection Hg' as <-.
  apply sublist_length in Hpts. rewrite length_fmap in Hpts.
  destruct (Z.le_gt_cases 0 g) as [Hpos|Hneg].
  - pose proof (length_traversal g Hpos) as Hlen. unfold len in *. lia.
  - unfold traversal in Hpts. rewrite range_seqZ, seqZ_nil in Hpts by lia.
    simpl in Hpts. unfold len. lia.
Qed.
End more_generator.

Lemma view_size_unknown zoom_level :
  zoom_level ∉ [15; 16; 17; 18; 19] →
  GridCalculator.view_size zoom_level = 0.0025%float.
Proof.
  intros Hz. unfold GridCalculator.view_size, GridCalculator.viewport_degrees.
  rewrite !list_to_map_cons, list_to_map_nil.
  rewrite !lookup_insert_ne, lookup_empty; [done|..];
    intros <-; apply Hz; set_solver.
Qed.

Section unknown_zoom.
Context `{Libm}.
Variables (center_lat center_lon radius_miles : float).
Import GridCalculator.
#[local] Open Scope float_scope.

Lemma retained_same_step z1 z2 cells point_id :
  view_size z1 = view_size z2 →
  lattice_views
    <$> retained center_lat center_lon radius_miles z1 cells point_id
  = lattice_views
      <$> retained center_lat center_lon radius_miles z2 cells point_id.
Proof.
  intros Hv. revert point_id.
  assert (∀ row, row_lat center_lat radius_miles z1 row
                 = row_lat center_lat radius_miles z2 row) as Hlat
    by (intros row; unfold row_lat, step_size; by rewrite Hv).
  assert (∀ col, col_lon center_lon radius_miles z1 col
                 = col_lon center_lon radius_miles z2 col) as Hlon
    by (intros col; unfold col_lon, step_size; by rewrite Hv).
  induction cells as [|[row col] cells IH]; intros point_id; [done|].
  simpl. rewrite Hlat, Hlon.
  destruct (_distance_miles _ _ _ _) as [distance|e]; [|done].
  rewrite !bind_Ok. destruct (distance <=? radius_miles); [|apply IH].
  specialize (IH (point_id + 1)%Z).
  destruct (retained _ _ _ z1 _ _), (retained _ _ _ z2 _ _); simpl in *;
    try done.
  by injection IH as ->.
Qed.

(** X5: a zoom level outside 15..19 gives the lattice of zoom 18: the same
    ids, coordinates, rows, columns and distances (the links name the zoom
    level asked for). *)
Theorem unknown_zoom_as_18 zoom_level :
  zoom_level ∉ [15; 16; 17; 18; 19]%Z →
  lattice_views
    <$> calculate_scan_grid center_lat center_lon radius_miles zoom_level
  = lattice_views
      <$> calculate_scan_grid center_lat center_lon radius_miles 18.
Proof.
  intros Hv%view_size_unknown. rewrite !scan_retained.
  assert (view_size zoom_level = view_size 18) as Hsame by (by rewrite Hv).
  unfold grid_size, radius_deg, step_size. rewrite Hsame.
  destruct (PyFloat.to_int _) as [n|e]; [|done]. rewrite !bind_Ok.
  by apply retained_same_step.
Qed.
End unknown_zoom.

(** X6: the haversine distance is never negative, whatever the coordinates
    (it can be a NaN). *)
Theorem haversine_never_negative `{LibmSign} lat1 lon1 lat2 lon2 distance :
  GridCalculator._distance_miles lat1 lon1 lat2 lon2 = Ok distance →
  (distance <? 0)%float = false.
Proof.
  intros Hd%distance_nonneg. unfold PyFloat.nonneg in Hd.
  by destruct (distance <? 0)%float.
Qed.

(** ** The handlers *)

Lemma active_session_None cookie scanning_sessions :
  active_session cookie scanning_sessions = None ↔
  cookie = None ∨ cookie = Some ""
  ∨ ∃ session_id, cookie = Some session_id
      ∧ scanning_sessions !! session_id = None.
Proof.
  unfold active_session. destruct cookie as [sid|]; [|by split; [left|]].
  destruct (decide (sid = "")) as [->|Hne].
  { split; [by right; left|done]. }
  destruct (scanning_sessions !! sid) as [s|] eqn:Hs; simpl.
  - split; [done|]. intros [?|[[= ?]|(sid' & [= <-] & Hs')]]; try done.
    by rewrite Hs in Hs'.
  - split; [|done]. intros _. right; right. by exists sid.
Qed.

Lemma active_session_insert cookie scanning_sessions session_id scan_session
    scan_session' :
  active_session cookie scanning_sessions = Some (session_id, scan_session) →
  active_session cookie (<[session_id := scan_session']> scanning_sessions)
  = Some (session_id, scan_session').
Proof.
  unfold active_session. destruct cookie as [sid|]; [|done].
  destruct (decide (sid = "")); [done|].
  destruct (scanning_sessions !! sid) eqn:Hs; [|done].
  intros [= <- <-]. by rewrite lookup_insert_eq.
Qed.

Section handler_facts.
Context `{Libm}.

(** X8: a handler other than [setup_scan] that finds no session for the
    cookie (no cookie, an empty one, or an id the store does not hold)
    answers "No active scanning session" and leaves the store as it is. *)
Theorem no_session_no_effect cookie scanning_sessions body now note
    bookmark_id now1 now2 :
  (cookie = None ∨ cookie = Some ""
   ∨ ∃ session_id, cookie = Some session_id
       ∧ scanning_sessions !! session_id = None) →
  get_current_location cookie scanning_sessions
  = (Ok no_active_session, scanning_sessions)
  ∧ control_scan cookie body now scanning_sessions
    = (Ok no_active_session, scanning_sessions)
  ∧ add_bookmark cookie note bookmark_id now1 now2 scanning_sessions
    = (Ok no_active_session, scanning_sessions)
  ∧ get_bookmarks cookie scanning_sessions
    = (Ok no_active_session, scanning_sessions)
  ∧ export_bookmarks cookie scanning_sessions
    = (Ok no_active_session, scanning_sessions).
Proof.
  intros Hnone%active_session_None.
  unfold get_current_location, control_scan, add_bookmark, get_bookmarks,
    export_bookmarks. by rewrite Hnone.
Qed.

Lemma handle_lookup_ne cookie r scanning_sessions session_id :
  target cookie r ≠ Some session_id →
  (handle cookie r scanning_sessions).2 !! session_id
  = scanning_sessions !! session_id.
Proof.
  intros Hother. destruct r; simpl in *.
  - unfold setup_scan. destruct (_ ≫= _) as [[d grid_points]|e]; [|done].
    simpl. apply lookup_insert_ne. congruence.
  - unfold get_current_location. by destruct (active_session _ _) as [[]|].
  - unfold control_scan.
    destruct (active_session _ _) as [[sid s]|] eqn:Hs; [|done].
    apply active_session_lookup in Hs as [-> _].
    destruct (apply_action body s); [|done].
    simpl. apply lookup_insert_ne. congruence.
  - unfold add_bookmark.
    destruct (active_session _ _) as [[sid s]|] eqn:Hs; [|done].
    apply active_session_lookup in Hs as [-> _].
    destruct (PyNum.lt _ _); [|done]. destruct (PyNum.getitem _ _); [|done].
    simpl. apply lookup_insert_ne. congruence.
  - unfold get_bookmarks. by destruct (active_session _ _) as [[]|].
  - unfold export_bookmarks. by destruct (active_session _ _) as [[]|].
Qed.

(** X9: a request writes at most one session: the one its cookie names,
    or for [setup_scan] the one it creates. Every other session of the store
    is as before. *)
Theorem request_touches_one_session cookie r scanning_sessions session_id :
  target cookie r ≠ Some session_id →
  (handle cookie r scanning_sessions).2 !! session_id
  = scanning_sessions !! session_id.
Proof. apply handle_lookup_ne. Qed.

(** X10: no request removes a session, and a request other than a setup
    keeps each session's id, centre, radius, zoom level, speed, grid and
    creation time, and keeps its bookmarks, adding at most one at the end. *)
Theorem sessions_persist cookie r scanning_sessions session_id scan_session :
  scanning_sessions !! session_id = Some scan_session →
  ∃ scan_session',
    (handle cookie r scanning_sessions).2 !! session_id = Some scan_session'
    ∧ (creates r = false →
       ScanSession.id scan_session' = ScanSession.id scan_session
       ∧ ScanSession.center_lat scan_session'
         = ScanSession.center_lat scan_session
       ∧ ScanSession.center_lon scan_session'
         = ScanSession.center_lon scan_session
       ∧ ScanSession.radius_miles scan_session'
         = ScanSession.radius_miles scan_session
       ∧ ScanSession.zoom_level scan_session'
         = ScanSession.zoom_level scan_session
       ∧ ScanSession.speed_seconds scan_session'
         = ScanSession.speed_seconds scan_session
       ∧ ScanSession.grid_points scan_session'
         = ScanSession.grid_points scan_session
       ∧ ScanSession.created_at scan_session'
         = ScanSession.created_at scan_session
       ∧ (ScanSession.bookmarks scan_session'
          = ScanSession.bookmarks scan_session
          ∨ ∃ bookmark,
              ScanSession.bookmarks scan_session'
              = ScanSession.bookmarks scan_session ++ [bookmark])).
Proof.
  intros Hs.
  destruct (decide (target cookie r = Some session_id)) as [Ht|Ht].
  2:{ rewrite handle_lookup_ne by done. exists scan_session.
      split; [done|]. intros _. repeat split; by left. }
  destruct r; simpl in *.
  - unfold setup_scan. destruct (_ ≫= _) as [[d grid_points]|e].
    + injection Ht as ->. simpl. rewrite lookup_insert_eq. by eexists.
    + by exists scan_session.
  - unfold get_current_location.
    exists scan_session. split; [by destruct (active_session _ _) as [[]|]|].
    intros _. repeat split; by left.
  - unfold control_scan.
    destruct (active_session _ _) as [[sid s]|] eqn:Ha.
    2:{ exists scan_session. split; [done|]. intros _.
        repeat split; by left. }
    apply active_session_lookup in Ha as [Hc Ha]. rewrite Ht in Hc.
    injection Hc as <-. rewrite Hs in Ha. injection Ha as <-.
    destruct (apply_action body scan_session) as [s'|e] eqn:Hact.
    2:{ exists scan_session. split; [done|]. intros _.
        repeat split; by left. }
    simpl. rewrite lookup_insert_eq. eexists. split; [done|]. intros _.
    destruct (apply_action_frame _ _ _ Hact) as (?&?&?&?&?&?&?&?&?).
    repeat split; try done. by left.
  - unfold add_bookmark.
    destruct (active_session _ _) as [[sid s]|] eqn:Ha.
    2:{ exists scan_session. split; [done|]. intros _.
        repeat split; by left. }
    apply active_session_lookup in Ha as [Hc Ha]. rewrite Ht in Hc.
    injection Hc as <-. rewrite Hs in Ha. injection Ha as <-.
    destruct (PyNum.lt _ _).
    2:{ exists scan_session. split; [done|]. intros _.
        repeat split; by left. }
    destruct (PyNum.getitem _ _).
    2:{ exists scan_session. split; [done|]. intros _.
        repeat split; by left. }
    simpl. rewrite lookup_insert_eq. eexists. split; [done|]. intros _.
    repeat split. right. by eexists.
  - unfold get_bookmarks.
    exists scan_session. split; [by destruct (active_session _ _) as [[]|]|].
    intros _. repeat split; by left.
  - unfold export_bookmarks.
    exists scan_session. split; [by destruct (active_session _ _) as [[]|]|].
    intros _. repeat split; by left.
Qed.

(** What the switching actions and the moving actions leave alone. *)
Lemma apply_action_switch body scan_session scan_session' :
  apply_action body scan_session = Ok scan_session' →
  ControlRequest.action body
    ∈ (Some <$> ["start"; "pause"; "resume"; "stop"]) →
  ScanSession.current_index scan_session'
  = ScanSession.current_index scan_session.
Proof.
  intros Hact Ha. simpl in Ha. rewrite !elem_of_cons, elem_of_nil in Ha.
  revert Hact. unfold apply_action.
  destruct Ha as [Ha|[Ha|[Ha|[Ha|[]]]]]; rewrite Ha;
    repeat case_decide; try done; by intros [= <-].
Qed.

Lemma apply_action_move body scan_session scan_session' :
  apply_action body scan_session = Ok scan_session' →
  ControlRequest.action body ∈ (Some <$> ["next"; "previous"; "jump"]) →
  ScanSession.is_running scan_session' = ScanSession.is_running scan_session
  ∧ ScanSession.is_paused scan_session'
    = ScanSession.is_paused scan_session.
Proof.
  intros Hact Ha. simpl in Ha. rewrite !elem_of_cons, elem_of_nil in Ha.
  revert Hact. unfold apply_action.
  destruct Ha as [Ha|[Ha|[Ha|[]]]]; rewrite Ha;
    repeat case_decide; try done; try by intros [= <-].
  by intros (index & _ & [= <-])%bind_eq_Ok.
Qed.
End handler_facts.

Section reachable_facts.
Context `{Libm}.

Lemma apply_action_well_formed body session_id scan_session scan_session'
    now :
  well_formed session_id scan_session →
  apply_action body scan_session = Ok scan_session' →
  well_formed session_id (ScanSession.set_last_activity now scan_session').
Proof.
  intros (Hid & Hscan & Hinv & Hb) Hact.
  destruct (apply_action_frame _ _ _ Hact)
    as (Hid' & Hlat & Hlon & Hrad & Hzoom & _ & Hg & _ & Hb').
  split; [|split; [|split]].
  - simpl. congruence.
  - simpl. by rewrite Hlat, Hlon, Hrad, Hzoom, Hg.
  - exact (apply_action_inv body scan_session scan_session' Hinv Hact).
  - unfold bookmarks_valid in *. simpl. by rewrite Hg, Hb'.
Qed.

Lemma handle_well_formed cookie r scanning_sessions :
  map_Forall well_formed scanning_sessions →
  map_Forall well_formed (handle cookie r scanning_sessions).2.
Proof.
  intros Hinv. destruct r; simpl.
  - unfold setup_scan. destruct data as [d|e]; [|done]. rewrite bind_Ok.
    destruct (GridCalculator.calculate_scan_grid _ _ _ _)
      as [grid_points|e] eqn:Hscan; [|done].
    rewrite bind_Ok. apply map_Forall_insert_2; [|done].
    split; [done|]. split; [done|]. split.
    + unfold session_inv. simpl. exists 0. split; [done|].
      pose proof (len_nonneg grid_points). case_decide; lia.
    + apply Forall_nil_2.
  - unfold get_current_location. by destruct (active_session _ _) as [[]|].
  - unfold control_scan.
    destruct (active_session _ _) as [[sid s]|] eqn:Hs; [|done].
    apply active_session_lookup in Hs as [_ Hs].
    destruct (apply_action body s) as [s'|e] eqn:Hact; [|done].
    apply map_Forall_insert_2; [|done].
    apply (apply_action_well_formed body sid s); [|done]. by apply (Hinv sid).
  - unfold add_bookmark.
    destruct (active_session _ _) as [[sid s]|] eqn:Hs; [|done].
    apply active_session_lookup in Hs as [_ Hs].
    destruct (Hinv sid s Hs) as (Hid & Hscan & Hi & Hb).
    destruct (PyNum.lt _ _); [|done].
    destruct (PyNum.getitem _ _) as [p|] eqn:Hp; [|done].
    apply map_Forall_insert_2; [|done].
    unfold PyNum.getitem in Hp.
    destruct (PyNum.view (ScanSession.current_index s)) as [i|x] eqn:Hv;
      [|done].
    assert (PyNum.to_Z (ScanSession.current_index s) = Some i) as Hz
      by (unfold PyNum.to_Z; by rewrite Hv).
    assert (0 ≤ i < len (ScanSession.grid_points s)) as Hin.
    { apply (index_inv_int _ _ _ Hz) in Hi. case_decide as Hn; [|lia].
      apply len_zero in Hn. rewrite Hn in Hp.
      by rewrite getitem_empty in Hp. }
    destruct (getitem_in_range (ScanSession.grid_points s) i Hin)
      as (p' & Hp' & Hg).
    rewrite Hp in Hg. injection Hg as <-.
    split; [done|]. split; [done|]. split; [done|].
    unfold bookmarks_valid in *. simpl. apply Forall_app. split; [done|].
    apply Forall_singleton. simpl. exists i, p.
    split; [done|]. split; [lia|]. by split.
  - unfold get_bookmarks. by destruct (active_session _ _) as [[]|].
  - unfold export_bookmarks. by destruct (active_session _ _) as [[]|].
Qed.

Lemma reachable_well_formed scanning_sessions :
  reachable scanning_sessions → map_Forall well_formed scanning_sessions.
Proof.
  induction 1 as [|scanning_sessions cookie r _ IH].
  - apply map_Forall_empty.
  - by apply handle_well_formed.
Qed.

(** X11: in a store the application can be in, every session is filed
    under its own id. *)
Theorem sessions_keyed_by_id scanning_sessions session_id scan_session :
  reachable scanning_sessions →
  scanning_sessions !! session_id = Some scan_session →
  ScanSession.id scan_session = session_id.
Proof.
  intros Hr Hs. by destruct (reachable_well_formed _ Hr _ _ Hs) as (? & _).
Qed.

(** X12: in a store the application can be in, every bookmark names a
    point of its session's grid by [grid_index], an integer within the
    grid, and its [lat], [lon] and [google_maps_url] are that point's. *)
Theorem bookmarks_refer_to_grid scanning_sessions session_id scan_session
    bookmark :
  reachable scanning_sessions →
  scanning_sessions !! session_id = Some scan_session →
  bookmark ∈ ScanSession.bookmarks scan_session →
  ∃ i p,
    PyNum.to_Z (Bookmark.grid_index bookmark) = Some i
    ∧ 0 ≤ i < len (ScanSession.grid_points scan_session)
    ∧ PyNum.getitem (ScanSession.grid_points scan_session)
        (Bookmark.grid_index bookmark) = Ok p
    ∧ Bookmark.lat bookmark = GridPoint.lat p
    ∧ Bookmark.lon bookmark = GridPoint.lon p
    ∧ Bookmark.google_maps_url bookmark = GridPoint.google_maps_url p.
Proof.
  intros Hr Hs Hb.
  destruct (reachable_well_formed _ Hr _ _ Hs) as (_ & _ & _ & Hv).
  unfold bookmarks_valid in Hv. rewrite Forall_forall in Hv.
  destruct (Hv _ Hb) as (i & p & Hi & H0 & Hp & Hrest).
  assert (i < len (ScanSession.grid_points scan_session)) as Hlt.
  { apply lookup_lt_Some in Hp. unfold len. lia. }
  exists i, p. split; [done|]. split; [lia|]. split; [|done].
  destruct (getitem_in_range (ScanSession.grid_points scan_session) i)
    as (p' & Hp' & Hg); [lia|].
  unfold PyNum.getitem. rewrite (to_Z_Some _ _ Hi). congruence.
Qed.


(** X14: [control_scan] on a session either moves it or switches it:
    start, pause, resume and stop leave [current_index] alone; next,
    previous and jump leave [is_running] and [is_paused] alone. *)
Theorem control_moves_or_switches cookie body now scanning_sessions
    session_id scan_session :
  active_session cookie scanning_sessions = Some (session_id, scan_session) →
  ∃ scan_session',
    (control_scan cookie body now scanning_sessions).2 !! session_id
    = Some scan_session'
    ∧ (ControlRequest.action body
         ∈ (Some <$> ["start"; "pause"; "resume"; "stop"]) →
       ScanSession.current_index scan_session'
       = ScanSession.current_index scan_session)
    ∧ (ControlRequest.action body ∈ (Some <$> ["next"; "previous"; "jump"]) →
       ScanSession.is_running scan_session'
       = ScanSession.is_running scan_session
       ∧ ScanSession.is_paused scan_session'
         = ScanSession.is_paused scan_session).
Proof.
  intros Hs. unfold control_scan. rewrite Hs.
  destruct (apply_action body scan_session) as [s'|e] eqn:Hact.
  - cbn [snd]. rewrite lookup_insert_eq. eexists. split; [done|]. split.
    + intros Ha. exact (apply_action_switch _ _ _ Hact Ha).
    + intros Ha. exact (apply_action_move _ _ _ Hact Ha).
  - apply active_session_lookup in Hs as [_ Hs]. by exists scan_session.
Qed.

(** X15: while the session is not on the last point, [previous] after
    [next] brings [current_index] back; while it is not on the first,
    [next] after [previous] does. The index is an integer [i] on the
    grid. *)
Theorem next_previous_inverse cookie now1 now2 scanning_sessions session_id
    scan_session i :
  active_session cookie scanning_sessions = Some (session_id, scan_session) →
  PyNum.to_Z (ScanSession.current_index scan_session) = Some i →
  0 ≤ i < len (ScanSession.grid_points scan_session) →
  let go action now :=
    λ σ, (control_scan cookie (act action) now σ).2 in
  let index_in σ := ScanSession.current_index <$> σ !! session_id in
  (i < len (ScanSession.grid_points scan_session) - 1 →
   index_in (go "previous" now2 (go "next" now1 scanning_sessions))
   = Some (PyNum.Int i))
  ∧ (0 < i →
     index_in (go "next" now2 (go "previous" now1 scanning_sessions))
     = Some (PyNum.Int i)).
Proof.
  intros Hs Hi Hci go index_in. subst go index_in. cbv beta.
  unfold control_scan. rewrite Hs.
  rewrite apply_action_next, apply_action_previous. cbn [snd].
  rewrite !(active_session_insert _ _ _ _ _ Hs).
  rewrite apply_action_next, apply_action_previous. cbn [snd].
  rewrite !lookup_insert_eq. cbn.
  rewrite (add_int_to_Z _ _ _ Hi), (sub_int_to_Z _ _ _ Hi).
  rewrite min_Int, max_Int. cbn. rewrite min_Int, max_Int.
  split; intros Hedge; do 2 f_equal; lia.
Qed.

(** X18: a request that fails changes nothing: when the answer is an
    error document or an exception escapes the handler, the store is as
    before. *)
Theorem failed_request_no_effect cookie r scanning_sessions :
  failed (handle cookie r scanning_sessions).1 = true →
  (handle cookie r scanning_sessions).2 = scanning_sessions.
Proof.
  destruct r; simpl.
  - unfold setup_scan. by destruct (_ ≫= _) as [[d grid_points]|e].
  - unfold get_current_location. by destruct (active_session _ _) as [[]|].
  - unfold control_scan. destruct (active_session _ _) as [[]|]; [|done].
    by destruct (apply_action _ _).
  - unfold add_bookmark. destruct (active_session _ _) as [[]|]; [|done].
    destruct (PyNum.lt _ _); [|done]. by destruct (PyNum.getitem _ _).
  - unfold get_bookmarks. by destruct (active_session _ _) as [[]|].
  - unfold export_bookmarks. by destruct (active_session _ _) as [[]|].
Qed.

(** X19: in a store the application can be in, the grid of every session
    is what [calculate_scan_grid] returns for the centre, radius and zoom
    level the session records. *)
Theorem session_grid_is_scan scanning_sessions session_id scan_session :
  reachable scanning_sessions →
  scanning_sessions !! session_id = Some scan_session →
  GridCalculator.calculate_scan_grid
    (ScanSession.center_lat scan_session)
    (ScanSession.center_lon scan_session)
    (ScanSession.radius_miles scan_session)
    (ScanSession.zoom_level scan_session)
  = Ok (ScanSession.grid_points scan_session).
Proof.
  intros Hr Hs. by destruct (reachable_well_formed _ Hr _ _ Hs) as (_ & ? & _).
Qed.

End reachable_facts.

Lemma nonfinite_cases (x : float) :
  PrimFloat.is_finite x = false → x = nan ∨ x = infinity ∨ x = neg_infinity.
Proof.
  unfold PrimFloat.is_finite, is_nan, is_infinity.
  rewrite !FloatAxioms.eqb_spec, FloatAxioms.abs_spec. intros Hx.
  destruct (Prim2SF x) as [s|s| |s m e] eqn:Hp.
  - exfalso. by destruct s.
  - right. destruct s; [right|left]; by apply Prim2SF_inj; rewrite Hp.
  - left. by apply Prim2SF_inj; rewrite Hp.
  - exfalso. revert Hx. unfold SFeqb, SFcompare, SFabs. simpl.
    rewrite Z.compare_refl, Pos.compare_cont_refl. by destruct s.
Qed.

Lemma view_size_cases zoom_level :
  let view_size := GridCalculator.view_size zoom_level in
  (view_size = 0.02 ∨ view_size = 0.01 ∨ view_size = 0.005
   ∨ view_size = 0.0025 ∨ view_size = 0.00125)%float.
Proof.
  destruct (decide (zoom_level ∈ [15; 16; 17; 18; 19])) as [Hz|Hz].
  - rewrite !elem_of_cons, elem_of_nil in Hz.
    destruct Hz as [->|[->|[->|[->|[->|[]]]]]]; vm_compute; tauto.
  - simpl. rewrite view_size_unknown by done. tauto.
Qed.

Section round_trips.
Context `{Libm}.

(** X7: a radius that is infinite or not a number never makes a session:
    [int()] raises in [calculate_scan_grid], [setup_scan] catches it,
    answers with the error and leaves the store as it is. *)
Theorem setup_rejects_nonfinite_radius d session_id now1 now2
    scanning_sessions :
  PrimFloat.is_finite (SetupData.radius_miles d) = false →
  setup_scan (Ok d) session_id now1 now2 scanning_sessions
  = (Ok (JsonSetupFailed
           (if is_nan (SetupData.radius_miles d) then ValueError
            else OverflowError)),
     scanning_sessions).
Proof.
  intros Hr%nonfinite_cases. unfold setup_scan. rewrite bind_Ok.
  unfold GridCalculator.calculate_scan_grid, GridCalculator.grid_size,
    GridCalculator.radius_deg, GridCalculator.step_size.
  pose proof (view_size_cases (SetupData.zoom_level d)) as Hv.
  simpl in Hv.
  destruct Hr as [->|[->| ->]];
    destruct Hv as [->|[->|[->|[->| ->]]]]; reflexivity.
Qed.

(** X16: after a setup that succeeds the new session is at its start:
    [get_current_location] with the new id answers with the first grid
    point, index 0, progress 0.0 and both flags off (or with "completed"
    when the grid is empty), and [get_bookmarks] lists nothing. *)
Theorem setup_then_location d session_id now1 now2 scanning_sessions
    grid_points :
  session_id ≠ "" →
  GridCalculator.calculate_scan_grid
    (SetupData.center_lat d) (SetupData.center_lon d)
    (SetupData.radius_miles d) (SetupData.zoom_level d) = Ok grid_points →
  let scanning_sessions' :=
    (setup_scan (Ok d) session_id now1 now2 scanning_sessions).2 in
  (get_current_location (Some session_id) scanning_sessions').1
  = Ok (match grid_points with
        | [] => JsonCompleted
        | current_point :: _ =>
            JsonLocation current_point (PyNum.Int 0) (len grid_points) 0
              false false
        end)
  ∧ (get_bookmarks (Some session_id) scanning_sessions').1
    = Ok (JsonBookmarks []).
Proof.
  intros Hid Hpts. unfold setup_scan. rewrite bind_Ok, Hpts, bind_Ok.
  simpl. unfold get_current_location, get_bookmarks, active_session.
  destruct (decide (session_id = "")); [done|].
  rewrite lookup_insert_eq. simpl. split; [|done].
  destruct grid_points as [|p pts]; [done|].
  change (PyNum.lt (PyNum.Int 0) (PyNum.Int (len (p :: pts))))
    with (0 <? len (p :: pts)).
  assert ((0 <? len (p :: pts)) = true) as ->.
  { apply Z.ltb_lt. unfold len. simpl. lia. }
  change (PyNum.getitem (p :: pts) (PyNum.Int 0)) with (getitem (p :: pts) 0).
  assert (getitem (p :: pts) 0 = Ok p) as ->.
  { unfold getitem. simpl.
    destruct (Z.ltb_spec 0 (len (p :: pts))); [done|].
    unfold len in *. simpl in *. lia. }
  rewrite bind_Ok.
  change (PyNum.truediv (PyNum.Int 0) (len (p :: pts)))
    with (PyFloat.truediv 0 (len (p :: pts))).
  unfold PyFloat.truediv.
  destruct (Z.eqb_spec (len (p :: pts)) 0) as [Hn|_].
  { unfold len in Hn. simpl in Hn. lia. }
  destruct (Z.ltb_spec (len (p :: pts)) 0) as [Hn|_].
  { unfold len in Hn. simpl in Hn. lia. }
  rewrite bind_Ok. reflexivity.
Qed.

(** X17: a bookmark that [add_bookmark] answers with is the last one
    [get_bookmarks] and [export_bookmarks] list afterwards, after the ones
    the session had; it carries the id drawn for it and the index the
    session is at. *)
Theorem bookmark_listed_after_add cookie note bookmark_id now1 now2
    scanning_sessions session_id scan_session bookmark :
  active_session cookie scanning_sessions = Some (session_id, scan_session) →
  (add_bookmark cookie note bookmark_id now1 now2 scanning_sessions).1
  = Ok (JsonBookmark bookmark) →
  let scanning_sessions' :=
    (add_bookmark cookie note bookmark_id now1 now2 scanning_sessions).2 in
  Bookmark.id bookmark = bookmark_id
  ∧ Bookmark.grid_index bookmark = ScanSession.current_index scan_session
  ∧ (get_bookmarks cookie scanning_sessions').1
    = Ok (JsonBookmarks (ScanSession.bookmarks scan_session ++ [bookmark]))
  ∧ ∃ export_data,
      (export_bookmarks cookie scanning_sessions').1
      = Ok (JsonExport export_data)
      ∧ ExportData.bookmarks export_data
        = ScanSession.bookmarks scan_session ++ [bookmark]
      ∧ ExportData.total_bookmarks export_data
        = len (ScanSession.bookmarks scan_session) + 1.
Proof.
  intros Hs. unfold add_bookmark. rewrite Hs.
  destruct (PyNum.lt _ _); [|done].
  destruct (PyNum.getitem _ _) as [p|] eqn:Hp; [|done]. simpl.
  intros [= <-]. split; [done|]. split; [done|].
  unfold get_bookmarks, export_bookmarks.
  erewrite active_session_insert by exact Hs. simpl. split; [done|].
  destruct (truediv_nonzero (ScanSession.current_index scan_session)
              (len (ScanSession.grid_points scan_session))) as [q Hq].
  { intros Hn%len_zero. rewrite Hn in Hp. unfold PyNum.getitem in Hp.
    destruct (PyNum.view _); [|done]. by rewrite getitem_empty in Hp. }
  rewrite Hq, bind_Ok. eexists. split; [reflexivity|]. simpl.
  split; [done|]. unfold len. rewrite length_app. simpl. lia.
Qed.
End round_trips.

(** ** Further properties on concrete inputs *)

(** X3 on [example_grid]. *)
Lemma grid_cells_distinct_example :
  ∃ pts, example_grid = Ok pts ∧ NoDup (GridCalculator.cell <$> pts).
Proof.
  destruct example_grid_value as (pts & Hpts & _).
  exists pts. split; [exact Hpts|].
  exact (grid_cells_distinct 0 0 2 15 pts Hpts).
Defined.

(** X4 on [example_grid]: at most 4 x 4 points. *)
Lemma grid_length_bound_example :
  ∃ pts, example_grid = Ok pts ∧ 0 ≤ len pts ≤ 16.
Proof.
  destruct example_grid_value as (pts & Hpts & _).
  exists pts. split; [exact Hpts|].
  refine (grid_length_bound 0 0 2 15 4 pts _ Hpts).
  vm_compute; reflexivity.
Defined.

(** X5 at zoom level 20. *)
Lemma unknown_zoom_as_18_example :
  lattice_views
    <$> GridCalculator.calculate_scan_grid (H := Reference.libm) 0 0 0.1 20
  = lattice_views
    <$> GridCalculator.calculate_scan_grid (H := Reference.libm) 0 0 0.1 18.
Proof.
  apply (unknown_zoom_as_18 (H := Reference.libm)).
  repeat (apply not_elem_of_cons; split; [discriminate|]).
  apply not_elem_of_nil.
Defined.

(** X6 on two points a hundredth of a degree apart. *)
Lemma haversine_never_negative_example :
  ∃ distance,
    GridCalculator._distance_miles (H := Reference.libm) 0 0 0.01 0.01
    = Ok distance
    ∧ (distance <? 0)%float = false.
Proof.
  assert (∃ distance,
            GridCalculator._distance_miles (H := Reference.libm)
              0 0 0.01 0.01 = Ok distance) as [distance Hd].
  { eexists. vm_compute; reflexivity. }
  exists distance. split; [exact Hd|].
  exact (haversine_never_negative (H0 := reference_atan2_negative)
           _ _ _ _ _ Hd).
Defined.

(** X7 with an infinite radius. *)
Lemma setup_rejects_nonfinite_radius_example :
  setup_scan (H := Reference.libm) (setup_data infinity 18) "s" "t0" "t1" ∅
  = (Ok (JsonSetupFailed OverflowError), ∅).
Proof.
  refine (setup_rejects_nonfinite_radius
            {| SetupData.center_lat := 0; SetupData.center_lon := 0;
               SetupData.radius_miles := infinity;
               SetupData.zoom_level := 18;
               SetupData.speed_seconds := 3 |} "s" "t0" "t1" ∅ _).
  reflexivity.
Defined.

(** X8 on [example_store], which holds no session "x". *)
Lemma no_session_no_effect_example :
  get_current_location (Some "x") example_store
  = (Ok no_active_session, example_store)
  ∧ control_scan (Some "x") (act "next") "t2" example_store
    = (Ok no_active_session, example_store)
  ∧ add_bookmark (Some "x") None "b" "t2" "t3" example_store
    = (Ok no_active_session, example_store)
  ∧ get_bookmarks (Some "x") example_store
    = (Ok no_active_session, example_store)
  ∧ export_bookmarks (Some "x") example_store
    = (Ok no_active_session, example_store).
Proof.
  apply (no_session_no_effect).
  right; right. exists "x". split; [reflexivity|]. vm_compute; reflexivity.
Defined.

(** X9 on [example_store]: a setup of session "u" leaves session "s" as it
    was. *)
Lemma request_touches_one_session_example :
  (handle (H := Reference.libm) (Some "s")
     (SetupScan (setup_data 0.5 15) "u" "t2" "t3") example_store).2 !! "s"
  = example_store !! "s".
Proof. apply request_touches_one_session. simpl. discriminate. Defined.

(** X10 on [example_store]: a bookmark request keeps the grid of "s". *)
Lemma sessions_persist_example :
  ∃ scan_session scan_session',
    example_store !! "s" = Some scan_session
    ∧ (handle (H := Reference.libm) (Some "s")
         (AddBookmark None "b" "t2" "t3") example_store).2 !! "s"
      = Some scan_session'
    ∧ ScanSession.grid_points scan_session'
      = ScanSession.grid_points scan_session.
Proof.
  destruct example_session as (scan_session & Hs & _).
  apply active_session_lookup in Hs as [_ Hs].
  destruct (sessions_persist (H := Reference.libm) (Some "s")
              (AddBookmark None "b" "t2" "t3") _ _ _ Hs)
    as (scan_session' & Hs' & Hsame).
  exists scan_session, scan_session'. split; [exact Hs|].
  split; [exact Hs'|].
  exact (proj1 (proj2 (proj2 (proj2 (proj2 (proj2 (proj2
           (Hsame eq_refl)))))))).
Defined.

(** X11 on [example_store]. *)
Lemma sessions_keyed_by_id_example :
  ∃ scan_session,
    example_store !! "s" = Some scan_session
    ∧ ScanSession.id scan_session = "s".
Proof.
  destruct example_session as (scan_session & Hs & _).
  apply active_session_lookup in Hs as [_ Hs].
  exists scan_session. split; [exact Hs|].
  exact (sessions_keyed_by_id _ _ _ example_store_reachable Hs).
Defined.

Lemma bookmarked_session :
  ∃ scan_session bookmark,
    bookmarked_store !! "s" = Some scan_session
    ∧ ScanSession.bookmarks scan_session = [bookmark]
    ∧ Bookmark.grid_index bookmark = PyNum.Int 0.
Proof. eexists. eexists. split; [|split]; vm_compute; reflexivity. Defined.

Lemma bookmarked_store_reachable :
  reachable (H := Reference.libm) bookmarked_store.
Proof. apply reachable_request, example_store_reachable. Defined.

#[local] Opaque bookmarked_store.

(** X12 on [bookmarked_store]: its bookmark is at the first point. *)
Lemma bookmarks_refer_to_grid_example :
  ∃ scan_session bookmark p,
    bookmarked_store !! "s" = Some scan_session
    ∧ ScanSession.bookmarks scan_session = [bookmark]
    ∧ PyNum.getitem (ScanSession.grid_points scan_session) (PyNum.Int 0)
      = Ok p
    ∧ Bookmark.lat bookmark = GridPoint.lat p
    ∧ Bookmark.lon bookmark = GridPoint.lon p.
Proof.
  destruct bookmarked_session as (scan_session & bookmark & Hs & Hb & Hi).
  assert (bookmark ∈ ScanSession.bookmarks scan_session) as Hin.
  { rewrite Hb. apply elem_of_cons. left. reflexivity. }
  destruct (bookmarks_refer_to_grid _ _ _ _ bookmarked_store_reachable
              Hs Hin) as (i & p & _ & _ & Hp & Hlat & Hlon & _).
  rewrite Hi in Hp.
  exists scan_session, bookmark, p.
  exact (conj Hs (conj Hb (conj Hp (conj Hlat Hlon)))).
Defined.


(** X14 on [example_store]: a pause leaves the index at 0. *)
Lemma control_moves_or_switches_example :
  ∃ scan_session',
    (control_scan (Some "s") (act "pause") "t2"
       example_store).2 !! "s" = Some scan_session'
    ∧ ScanSession.current_index scan_session' = PyNum.Int 0.
Proof.
  destruct example_session as (scan_session & Hs & _ & Hi).
  destruct (control_moves_or_switches _ (act "pause")
              "t2" _ _ _ Hs) as (scan_session' & Hs' & Hmove & _).
  exists scan_session'. split; [exact Hs'|].
  rewrite <- Hi. apply Hmove. simpl.
  apply elem_of_cons. right. apply elem_of_cons. left. reflexivity.
Defined.

(** X15 on [example_store], at the first of 9 points. *)
Lemma next_previous_inverse_example :
  ScanSession.current_index
    <$> (control_scan (Some "s") (act "previous") "t3"
           (control_scan (Some "s") (act "next") "t2"
              example_store).2).2 !! "s"
  = Some (PyNum.Int 0).
Proof.
  destruct example_session as (scan_session & Hs & Hn & Hi).
  assert (PyNum.to_Z (ScanSession.current_index scan_session) = Some 0)
    as Hz by (by rewrite Hi).
  pose proof (next_previous_inverse _ "t2" "t3" _ _ _ 0 Hs Hz) as Hinv.
  rewrite Hn in Hinv. cbv zeta in Hinv.
  apply Hinv; lia.
Defined.

(** X16 for the setup of [example_store]. *)
Lemma setup_then_location_example :
  ∃ current_point,
    (get_current_location (Some "s")
       (setup_scan (H := Reference.libm) (setup_data 2 15) "s" "t0" "t1"
          ∅).2).1
    = Ok (JsonLocation current_point (PyNum.Int 0) 9 0 false false).
Proof.
  destruct example_grid_value as (pts & Hpts & Hcells).
  assert (len pts = 9) as Hn.
  { apply (f_equal length) in Hcells. rewrite length_fmap in Hcells.
    unfold len. by rewrite Hcells. }
  assert ("s" ≠ "") as Hid by discriminate.
  pose proof (proj1 (setup_then_location (H := Reference.libm)
    {| SetupData.center_lat := 0; SetupData.center_lon := 0;
       SetupData.radius_miles := 2; SetupData.zoom_level := 15;
       SetupData.speed_seconds := 3 |} "s" "t0" "t1" ∅ pts Hid Hpts))
    as Hloc.
  destruct pts as [|current_point pts]; [discriminate Hcells|].
  exists current_point. rewrite Hn in Hloc. exact Hloc.
Defined.

(** X17 on [example_store]. *)
Lemma bookmark_listed_after_add_example :
  ∃ scan_session bookmark,
    example_store !! "s" = Some scan_session
    ∧ (get_bookmarks (Some "s")
         (add_bookmark (Some "s") None "b" "t2" "t3"
            example_store).2).1
      = Ok (JsonBookmarks (ScanSession.bookmarks scan_session ++ [bookmark]))
    ∧ Bookmark.id bookmark = "b".
Proof.
  destruct example_session as (scan_session & Hs & _).
  assert (∃ bookmark,
            (add_bookmark (Some "s") None "b" "t2"
               "t3" example_store).1 = Ok (JsonBookmark bookmark))
    as [bookmark Hb].
  { eexists. vm_compute; reflexivity. }
  destruct (bookmark_listed_after_add _ _ _ _ _ _ _ _ _ Hs Hb)
    as (Hid & _ & Hlist & _).
  exists scan_session, bookmark.
  split; [exact (proj2 (active_session_lookup _ _ _ _ Hs))|].
  exact (conj Hlist Hid).
Defined.

(** X18 on [empty_grid_store]: the export that raises leaves it alone. *)
Lemma failed_request_no_effect_example :
  (handle (H := Reference.libm) (Some "s") ExportBookmarks
     empty_grid_store).1 = Raise ZeroDivisionError
  ∧ (handle (H := Reference.libm) (Some "s") ExportBookmarks
       empty_grid_store).2 = empty_grid_store.
Proof.
  split; [vm_compute; reflexivity|].
  apply failed_request_no_effect. vm_compute; reflexivity.
Defined.

(** X19 on [example_store]. *)
Lemma session_grid_is_scan_example :
  ∃ scan_session,
    example_store !! "s" = Some scan_session
    ∧ GridCalculator.calculate_scan_grid (H := Reference.libm)
        (ScanSession.center_lat scan_session)
        (ScanSession.center_lon scan_session)
        (ScanSession.radius_miles scan_session)
        (ScanSession.zoom_level scan_session)
      = Ok (ScanSession.grid_points scan_session).
Proof.
  destruct example_session as (scan_session & Hs & _).
  apply active_session_lookup in Hs as [_ Hs].
  exists scan_session. split; [exact Hs|].
  exact (session_grid_is_scan _ _ _ example_store_reachable Hs).
Defined.

